(** * adc-to-zmap-nii-to-dcm: pairing NIfTI volumes with DICOM series

    A shallow embedding of [app.py] and the properties of its file
    discovery, key derivation, pair resolution and conversion driver.

    Python values are modelled as follows.
    - [str] is [string]; the three-key dictionaries built by
      [_get_nii_fileinfo] and [_get_dcm_fileinfo] are the record [fileinfo].
    - The dictionary [dcm_fileinfo_map] is a [gmap string fileinfo], filled
      in iteration order so that a later key overwrites an earlier one.
    - Exceptions and output are explicit: a computation of type [Run A]
      carries the events it emitted (lines printed, calls of the external
      conversion routine) and either the value returned or the exception
      raised.
    - The file system, the DICOM reader and the conversion routine are
      outside the program; they are variables of the section [App]. *)

From stdpp Require Import gmap strings list pretty.
From Stdlib Require Import Ascii.

Set Default Proof Using "Type".

(** ** Strings: the library functions the program calls *)

Module Str.

Definition LF : string := String "010"%char "".

(** [s.endswith(suffix)] *)
Fixpoint endswith (s suffix : string) : bool :=
  if bool_decide (s = suffix) then true
  else match s with
       | "" => false
       | String _ s' => endswith s' suffix
       end.

(** [re.sub(lit + '$', repl, s)] for a literal [lit] that is not empty and
    holds no line feed (both patterns of the program are such: their
    escaped dots are literal dots).  The scan goes left to right; [$]
    matches at the very end of the string and also just before a line feed
    that ends the string, so the literal matches at a position when the
    rest of the string is [lit] or [lit] followed by one line feed. *)
Fixpoint re_sub_at_end (lit repl s : string) : string :=
  if bool_decide (s = lit) then repl
  else if bool_decide (s = lit +:+ LF) then repl +:+ LF
  else match s with
       | "" => ""
       | String c s' => String c (re_sub_at_end lit repl s')
       end.

(** [re.sub(c, repl, s)] for a pattern that is the one literal
    character [c]: every occurrence is replaced. *)
Fixpoint re_sub_char (c : ascii) (repl s : string) : string :=
  match s with
  | "" => ""
  | String a s' =>
      (if decide (a = c) then repl else String a "") +:+ re_sub_char c repl s'
  end.

Definition sep : ascii := "/"%char.

(** [(p[:i], p[i:])] with [i = p.rfind('/') + 1], the split that
    [posixpath.basename] and [posixpath.dirname] start from. *)
Fixpoint rsplit_sep (p : string) : string * string :=
  match p with
  | "" => ("", "")
  | String c p' =>
      let '(head, tail) := rsplit_sep p' in
      if bool_decide (head = "") then
        if decide (c = sep) then (String c "", tail) else ("", String c tail)
      else (String c head, tail)
  end.

(** [s.rstrip('/')] *)
Fixpoint rstrip_sep (s : string) : string :=
  match s with
  | "" => ""
  | String a s' =>
      let r := rstrip_sep s' in
      if bool_decide (r = "") && bool_decide (a = sep) then "" else String a r
  end.

(** [s == '/' * len(s)] *)
Fixpoint all_sep (s : string) : bool :=
  match s with
  | "" => true
  | String a s' => bool_decide (a = sep) && all_sep s'
  end.

(** [os.path.basename(p)] *)
Definition basename (p : string) : string := (rsplit_sep p).2.

(** [os.path.dirname(p)] *)
Definition dirname (p : string) : string :=
  let head := (rsplit_sep p).1 in
  if negb (bool_decide (head = "")) && negb (all_sep head)
  then rstrip_sep head else head.

(** The character [c] occurs in [s]. *)
Fixpoint occurs (c : ascii) (s : string) : bool :=
  match s with
  | "" => false
  | String a s' => bool_decide (a = c) || occurs c s'
  end.

End Str.

(** ** Computations that print, call out and raise *)

(** A Python exception, known by the text that [{e}] prints for it. *)
Inductive exn := Exception (str : string).

Definition str_of_exn (e : exn) : string := let 'Exception s := e in s.

(** [pathlib.Path(s)], known by the string it was built from. *)
Inductive Path := mkPath (s : string).

Inductive event :=
| Stdout (line : string)
| Nii2dcm (nii out_dir : Path) (modality : string) (ref : Path).

Inductive outcome (A : Type) :=
| Returned (a : A)
| Raised (e : exn).
Arguments Returned {A} a.
Arguments Raised {A} e.

Definition Run (A : Type) : Type := list event * outcome A.

Definition trace {A} (m : Run A) : list event := m.1.
Definition result {A} (m : Run A) : outcome A := m.2.

#[global] Instance Run_ret : MRet Run := λ A a, ([], Returned a).

#[global] Instance Run_bind : MBind Run := λ A B f m,
  match m.2 with
  | Returned a => (m.1 ++ (f a).1, (f a).2)
  | Raised e => (m.1, Raised e)
  end.

Definition print (line : string) : Run unit := ([Stdout line], Returned tt).

Definition raise {A} (e : exn) : Run A := ([], Raised e).

(** What a call of a function of the environment gave. *)
Definition lift {A} (o : outcome A) : Run A := ([], o).

(** [try: body  except Exception as e: handler e] *)
Definition try_except {A} (body : Run A) (handler : exn → Run A) : Run A :=
  match body.2 with
  | Returned a => body
  | Raised e => (body.1 ++ (handler e).1, (handler e).2)
  end.

(** [for x in xs: s = body s x], the state [s] standing for the variables
    the loop body assigns. *)
Fixpoint for_each {A S} (xs : list A) (body : S → A → Run S) (s : S) : Run S :=
  match xs with
  | [] => mret s
  | x :: xs' => s' ← body s x; for_each xs' body s'
  end.

(** The calls of the conversion routine among the events, in order. *)
Definition conversions (t : list event) : list (Path * Path * string * Path) :=
  omap (λ ev, match ev with
              | Nii2dcm nii out_dir modality ref => Some (nii, out_dir, modality, ref)
              | Stdout _ => None
              end) t.

(** [enumerate(l)] *)
Definition enumerate {A} (l : list A) : list (nat * A) := imap pair l.

(** ** The program *)

(** The dictionary [{'filename': .., 'prompt': .., 'base_filename': ..}]
    that stands for a NIfTI file or for a DICOM directory. *)
Record fileinfo := mk_fileinfo {
  filename : string;
  prompt : string;
  base_filename : string
}.

#[global] Instance fileinfo_eq_dec : EqDecision fileinfo.
Proof. solve_decision. Defined.

(** A data set read by [pydicom]: what reading the value of an element
    gives, by keyword ([ds.data_element(kw).value]) and by tag
    ([ds[group, elem].value]).  A read raises or returns a value; a value
    is Python's [None], here [None], or another value, here [Some s] with
    [s] the text an f-string prints for it. *)
Record Dataset := mk_Dataset {
  data_element_value : string → outcome (option string);
  item_value : N → N → outcome (option string)
}.

(** [d[key]] for [d] a dictionary or [None] *)
Definition subscript (d : option fileinfo) (key : fileinfo → string) : Run string :=
  match d with
  | Some r => mret (key r)
  | None => raise (Exception "'NoneType' object is not subscriptable")
  end.

(** [f'{v}'] for [v] a value or [None] *)
Definition format_value (v : option string) : string :=
  match v with
  | Some s => s
  | None => "None"
  end.

Definition _get_nii_fileinfo (filename : string) : fileinfo :=
  let prompt := Str.re_sub_at_end "_ss_zmap.nii.gz" "" filename in
  let base_filename := Str.basename filename in
  {| filename := filename; prompt := prompt; base_filename := base_filename |}.

Definition _get_outdir (outputdir nii_filename : string) : string :=
  let nii_basename := Str.basename nii_filename in
  let nii_prefix := Str.re_sub_at_end ".nii.gz" "" nii_basename in
  outputdir +:+ "/" +:+ nii_prefix.

(** Lines 154 and 155: the key of a DICOM directory from its five fields. *)
Definition dcm_prompt (protocol_name description the_date the_time series_no : string)
  : string :=
  let prompt := protocol_name +:+ "_" +:+ description +:+ "_" +:+ the_date
                  +:+ "_" +:+ the_time +:+ "_" +:+ series_no in
  Str.re_sub_char " " "_" prompt.

(** Line 163: the dictionary comprehension, a later record replacing an
    earlier one of the same prompt. *)
Definition dcm_fileinfo_map (dcm_fileinfos : list fileinfo) : gmap string fileinfo :=
  foldl (λ m each, <[prompt each := each]> m) ∅ dcm_fileinfos.

(** Lines 165, 167 and 171: the local lists of [_nii_dcm_pairs]. *)
Definition pairs (nii_fileinfos dcm_fileinfos : list fileinfo)
  : list (fileinfo * option fileinfo) :=
  (λ each, (each, dcm_fileinfo_map dcm_fileinfos !! prompt each)) <$> nii_fileinfos.

Definition invalid_pairs (nii_fileinfos dcm_fileinfos : list fileinfo)
  : list (fileinfo * option fileinfo) :=
  filter (λ x, x.2 = None) (pairs nii_fileinfos dcm_fileinfos).

Definition valid_pairs (nii_fileinfos dcm_fileinfos : list fileinfo)
  : list (fileinfo * option fileinfo) :=
  filter (λ x, x.2 ≠ None) (pairs nii_fileinfos dcm_fileinfos).

Definition _nii_dcm_pairs (nii_fileinfos dcm_fileinfos : list fileinfo)
  : Run (list (fileinfo * option fileinfo)) :=
  let invalid_pairs := invalid_pairs nii_fileinfos dcm_fileinfos in
  for_each (enumerate invalid_pairs) (λ _ '(idx, (nii_fileinfo, dcm_fileinfo)),
    print ("[WARN] (" +:+ pretty idx +:+ "/" +:+ pretty (length invalid_pairs)
             +:+ ") " +:+ base_filename nii_fileinfo +:+ ": no dcm pair")) tt;;
  let valid_pairs := valid_pairs nii_fileinfos dcm_fileinfos in
  for_each (enumerate valid_pairs) (λ _ '(idx, (nii_fileinfo, dcm_fileinfo)),
    dcm_base_filename ← subscript dcm_fileinfo base_filename;
    print ("[INFO] (" +:+ pretty idx +:+ "/" +:+ pretty (length invalid_pairs)
             +:+ ") " +:+ base_filename nii_fileinfo +:+ ": " +:+ dcm_base_filename)) tt;;
  mret valid_pairs.

Section App.

(** The environment: the directory listing, the directory walk (which
    skips what it cannot read), the DICOM reader and the conversion
    routine of [nii2dcm]. *)
Variable os_listdir : string → outcome (list string).
Variable os_walk : string → list (string * list string * list string).
Variable dcm_dcmread : string → outcome Dataset.
Variable run_nii2dcm : Path → Path → string → Path → outcome unit.

Definition _get_nii_fileinfos (inputdir : string) : Run (list fileinfo) :=
  filenames ← lift (os_listdir inputdir);
  let valid_filenames := filter (λ x, Str.endswith x ".nii.gz") filenames in
  let nii_fileinfos := _get_nii_fileinfo <$> valid_filenames in
  mret nii_fileinfos.

Definition _get_dcm_fileinfo (filename : string) : Run fileinfo :=
  let the_base_filename := Str.basename filename in
  let dir_basename := Str.basename (Str.dirname filename) in
  let base_filename := dir_basename +:+ "/" +:+ the_base_filename in
  let warn what e :=
    print ("[WARN] _get_dcm_filename: " +:+ base_filename +:+ " unable to get "
             +:+ what +:+ " e: " +:+ str_of_exn e) in
  the_dcm ← lift (dcm_dcmread filename);
  protocol_name ←
    try_except (lift (data_element_value the_dcm "ProtocolName"))
      (λ e, warn "protocol name from ProtocolName" e;; mret None);
  protocol_name ←
    match protocol_name with
    | None =>
        try_except (lift (data_element_value the_dcm "SequenceName"))
          (λ e, warn "protocol name from SequenceName" e;; mret (Some ""))
    | Some _ => mret protocol_name
    end;
  description ←
    try_except (lift (data_element_value the_dcm "SeriesDescription"))
      (λ e, warn "description" e;; mret (Some ""));
  the_date ←
    try_except (lift (item_value the_dcm 0x08 0x20))
      (λ e, warn "date" e;; mret (Some ""));
  the_time ←
    try_except (lift (item_value the_dcm 0x08 0x30))
      (λ e, warn "time" e;; mret (Some ""));
  series_no ←
    try_except (lift (item_value the_dcm 0x20 0x11))
      (λ e, warn "series-no" e;; mret (Some ""));
  let prompt :=
    dcm_prompt (format_value protocol_name) (format_value description)
      (format_value the_date) (format_value the_time) (format_value series_no) in
  print ("[INFO] _get_dcm_fileinfo: to return: " +:+ base_filename
           +:+ ": prompt: " +:+ prompt);;
  mret {| filename := filename; prompt := prompt; base_filename := base_filename |}.

(** The body of the loop of [_get_dcm_fileinfos] (lines 85 to 92) on the
    list [dcm_fileinfos] built so far. *)
Definition _get_dcm_fileinfos_body (dcm_fileinfos : list fileinfo)
    (entry : string * list string * list string) : Run (list fileinfo) :=
  let '(root, the_dirs, the_filenames) := entry in
  let filenames := the_filenames in
  let valid_filenames := filter (λ x, Str.endswith x ".dcm") filenames in
  match valid_filenames with
  | [] => mret dcm_fileinfos
  | first :: _ =>
      let full_filename := root +:+ "/" +:+ first in
      dcm_fileinfo ← _get_dcm_fileinfo full_filename;
      mret (dcm_fileinfos ++ [dcm_fileinfo])
  end.

Definition _get_dcm_fileinfos (inputdir : string) : Run (list fileinfo) :=
  dcm_fileinfos ← for_each (os_walk inputdir) _get_dcm_fileinfos_body [];
  print ("[INFO] _get_dcm_fileinfos: to return: " +:+ pretty (length dcm_fileinfos));;
  mret dcm_fileinfos.

(** The body of the loop of [main] (lines 63 to 66). *)
Definition main_body (outputdir_str : string) (_ : unit)
    (pair : fileinfo * option fileinfo) : Run unit :=
  let '(nii_fileinfo, dcm_fileinfo) := pair in
  let nii_filename := filename nii_fileinfo in
  dcm_filename ← subscript dcm_fileinfo filename;
  let out_dir := _get_outdir outputdir_str nii_filename in
  ([Nii2dcm (mkPath nii_filename) (mkPath out_dir) "MR" (mkPath dcm_filename)],
   run_nii2dcm (mkPath nii_filename) (mkPath out_dir) "MR" (mkPath dcm_filename)).

Definition main (inputdir outputdir : string) : Run unit :=
  let inputdir_str := inputdir in
  let outputdir_str := outputdir in
  nii_fileinfos ← _get_nii_fileinfos inputdir_str;
  dcm_fileinfos ← _get_dcm_fileinfos inputdir_str;
  nii_dcm_pairs ← _nii_dcm_pairs nii_fileinfos dcm_fileinfos;
  print ("adc-to-zmap-nii-to-dcm: to dcm: nii_fileinfos: "
           +:+ pretty (length nii_fileinfos) +:+ " nii_dcm_pairs: "
           +:+ pretty (length nii_dcm_pairs));;
  for_each nii_dcm_pairs (main_body outputdir_str) tt.

End App.

(** The text that an f-string prints for the value read, or the fallback
    when the read raised. *)
Definition printed_or (read : outcome (option string)) (fallback : string)
  : string :=
  match read with
  | Returned v => format_value v
  | Raised _ => fallback
  end.

(** The first segment of the prompt: the protocol name when it was read and
    is not [None], else what the sequence name gives. *)
Definition protocol_segment (the_dcm : Dataset) : string :=
  match data_element_value the_dcm "ProtocolName" with
  | Returned (Some v) => v
  | Returned None | Raised _ =>
      printed_or (data_element_value the_dcm "SequenceName") ""
  end.

(** A computation that does not call the conversion routine. *)
Definition quiet {A} (m : Run A) : Prop := conversions (trace m) = [].

(** The number of occurrences of the character [c] in [s]. *)
Fixpoint count_char (c : ascii) (s : string) : nat :=
  match s with
  | "" => 0
  | String a s' => (if decide (a = c) then 1 else 0) + count_char c s'
  end.


(** The path that [_get_dcm_fileinfos] reads for a directory of the walk:
    the root, [/] and the first entry that ends in [.dcm], when there is
    one. *)
Definition representative (entry : string * list string * list string)
  : option string :=
  let '(root, the_dirs, the_filenames) := entry in
  (λ first, root +:+ "/" +:+ first)
    <$> head (filter (λ x, Is_true (Str.endswith x ".dcm")) the_filenames).

(** ** Sample inventories *)

Module Sample.

Definition nii_A : fileinfo := _get_nii_fileinfo "brainA_ss_zmap.nii.gz".
Definition nii_A' : fileinfo := _get_nii_fileinfo "brainA.nii.gz_ss_zmap.nii.gz".
Definition nii_A2 : fileinfo := _get_nii_fileinfo "brainA.nii.gz".
Definition nii_B : fileinfo := _get_nii_fileinfo "brainB_ss_zmap.nii.gz".

Definition dcm_A1 : fileinfo :=
  {| filename := "/in/seriesX/scan1.dcm"; prompt := "brainA";
     base_filename := "seriesX/scan1.dcm" |}.
Definition dcm_A2 : fileinfo :=
  {| filename := "/in/seriesY/scan1.dcm"; prompt := "brainA";
     base_filename := "seriesY/scan1.dcm" |}.
Definition dcm_C : fileinfo :=
  {| filename := "/in/seriesZ/scan9.dcm"; prompt := "brainA.nii.gz";
     base_filename := "seriesZ/scan9.dcm" |}.


(** An input directory: two NIfTI volumes, a text file, a series directory
    with two DICOM files and a directory without any. *)
Definition os_listdir (inputdir : string) : outcome (list string) :=
  Returned ["ep_b1000_ADC_20200101__7_ss_zmap.nii.gz"; "brainB_ss_zmap.nii.gz";
            "notes.txt"; "seriesX"; "empty"].

Definition os_walk (inputdir : string)
  : list (string * list string * list string) :=
  [(inputdir, ["seriesX"; "empty"],
    ["ep_b1000_ADC_20200101__7_ss_zmap.nii.gz"; "brainB_ss_zmap.nii.gz";
     "notes.txt"]);
   (inputdir +:+ "/seriesX", [], ["readme.txt"; "scan1.dcm"; "scan2.dcm"]);
   (inputdir +:+ "/empty", [], ["readme.txt"])].

(** A data set without protocol name and without study time. *)
Definition the_dcm : Dataset :=
  {| data_element_value kw :=
       if bool_decide (kw = "SequenceName") then Returned (Some "ep b1000")
       else if bool_decide (kw = "SeriesDescription") then Returned (Some "ADC")
       else Raised (Exception kw);
     item_value group elem :=
       if bool_decide (group = 0x08%N ∧ elem = 0x20%N) then Returned (Some "20200101")
       else if bool_decide (group = 0x20%N ∧ elem = 0x11%N) then Returned (Some "7")
       else Raised (Exception "tag") |}.

(** A data set in which no element can be read. *)
Definition blank_dcm : Dataset :=
  {| data_element_value kw := Raised (Exception kw);
     item_value group elem := Raised (Exception "tag") |}.

Definition dcm_dcmread (filename : string) : outcome Dataset := Returned the_dcm.

Definition run_nii2dcm (nii out_dir : Path) (modality : string) (ref : Path)
  : outcome unit := Returned tt.


(** The record of the series directory of the sample input. *)
Definition dcm_X : fileinfo :=
  {| filename := "/in/seriesX/scan1.dcm"; prompt := "ep_b1000_ADC_20200101__7";
     base_filename := "seriesX/scan1.dcm" |}.

(** A data set in which every element can be read, and the same without
    its sequence name. *)
Definition full_dcm : Dataset :=
  {| data_element_value kw := Returned (Some kw);
     item_value group elem := Returned (Some "1") |}.

Definition full_dcm_no_sequence : Dataset :=
  {| data_element_value kw :=
       if bool_decide (kw = "SequenceName") then Raised (Exception kw)
       else Returned (Some kw);
     item_value group elem := Returned (Some "1") |}.

(** A data set whose protocol name is read as [None], and one whose
    sequence name is read as [None] too. *)
Definition none_dcm : Dataset :=
  {| data_element_value kw :=
       if bool_decide (kw = "ProtocolName") then Returned None
       else Returned (Some kw);
     item_value group elem := Returned (Some "1") |}.

Definition none_none_dcm : Dataset :=
  {| data_element_value kw :=
       if bool_decide (kw = "ProtocolName") then Returned None
       else if bool_decide (kw = "SequenceName") then Returned None
       else Returned (Some kw);
     item_value group elem := Returned (Some "1") |}.

(** A reader for which no file is a DICOM file, and one that can read the
    first file of the series only. *)
Definition dcm_dcmread_invalid (filename : string) : outcome Dataset :=
  Raised (Exception "InvalidDicomError").

Definition dcm_dcmread_first_only (filename : string) : outcome Dataset :=
  if Str.endswith filename "scan1.dcm" then Returned the_dcm
  else Raised (Exception "InvalidDicomError").

(** An input directory that cannot be listed, and a walk without DICOM
    files. *)
Definition os_listdir_missing (inputdir : string) : outcome (list string) :=
  Raised (Exception "FileNotFoundError").

Definition os_walk_no_dcm (inputdir : string)
  : list (string * list string * list string) :=
  [(inputdir, [], ["brainB_ss_zmap.nii.gz"; "notes.txt"])].

End Sample.

(** ** Facts about the string functions *)

Module StrFacts.
Import Str.

Lemma append_nil_l s : "" +:+ s = s.
Proof. done. Qed.

Lemma append_cons c s t : String c s +:+ t = String c (s +:+ t).
Proof. done. Qed.

Lemma append_nil_r s : s +:+ "" = s.
Proof. induction s as [|c s IH]; [done|]. by rewrite append_cons, IH. Qed.

Lemma append_assoc s t u : (s +:+ t) +:+ u = s +:+ t +:+ u.
Proof. induction s as [|c s IH]; [done|]. by rewrite !append_cons, IH. Qed.

Lemma length_append s t :
  String.length (s +:+ t) = String.length s + String.length t.
Proof. induction s as [|c s IH]; [done|]. rewrite append_cons. simpl. by rewrite IH. Qed.

Lemma chars_app s t :
  String.list_ascii_of_string (s +:+ t)
  = String.list_ascii_of_string s ++ String.list_ascii_of_string t.
Proof. induction s as [|c s IH]; [done|]. rewrite append_cons. simpl. by rewrite IH. Qed.

Lemma occurs_app c s t : occurs c (s +:+ t) = occurs c s || occurs c t.
Proof.
  induction s as [|a s IH]; [done|].
  rewrite append_cons. simpl. by rewrite IH, orb_assoc.
Qed.

(** *** [endswith] *)

Lemma endswith_unfold s suffix :
  endswith s suffix =
  if bool_decide (s = suffix) then true
  else match s with "" => false | String _ s' => endswith s' suffix end.
Proof. by destruct s. Qed.

Lemma endswith_app p suffix : endswith (p +:+ suffix) suffix = true.
Proof.
  induction p as [|c p IH]; rewrite endswith_unfold.
  - by rewrite append_nil_l, bool_decide_eq_true_2.
  - rewrite append_cons. by case_bool_decide.
Qed.

Lemma endswith_true s suffix :
  endswith s suffix = true → ∃ p, s = p +:+ suffix.
Proof.
  induction s as [|c s IH]; rewrite endswith_unfold; case_bool_decide as Heq.
  - intros _. by exists "".
  - done.
  - intros _. by exists "".
  - intros [p ->]%IH. by exists (String c p).
Qed.

Lemma endswith_iff s suffix :
  endswith s suffix = true ↔ ∃ p, s = p +:+ suffix.
Proof.
  split; [apply endswith_true|]. intros [p ->]. apply endswith_app.
Qed.

Lemma endswith_tail c s suffix :
  endswith (String c s) suffix = false → endswith s suffix = false.
Proof. rewrite (endswith_unfold (String c s)). by case_bool_decide. Qed.

Lemma endswith_false_ne s suffix : endswith s suffix = false → s ≠ suffix.
Proof. rewrite endswith_unfold. by case_bool_decide. Qed.

(** *** The pattern [lit$] *)

Lemma re_sub_at_end_unfold lit repl s :
  re_sub_at_end lit repl s =
  if bool_decide (s = lit) then repl
  else if bool_decide (s = lit +:+ LF) then repl +:+ LF
  else match s with
       | "" => ""
       | String c s' => String c (re_sub_at_end lit repl s')
       end.
Proof. by destruct s. Qed.

(** A string that stays the same when its first character moves to the
    end as a line feed is made of line feeds. *)
Lemma rotate_LF c lit :
  lit ≠ "" → String c lit = lit +:+ LF → occurs "010" lit = true.
Proof.
  revert c. induction lit as [|a l IH]; [done|]. intros c _.
  rewrite append_cons. intros [= -> Hl]. simpl.
  destruct l as [|b l]; [by injection Hl as ->|].
  rewrite (IH a); [|done|done]. apply orb_true_r.
Qed.

Lemma longer_ne c p s : String c (p +:+ s) ≠ s.
Proof.
  intros H%(f_equal String.length). simpl in H. rewrite length_append in H. lia.
Qed.

(** The literal at the very end is replaced. *)
Lemma re_sub_at_end_suffix lit repl p :
  lit ≠ "" → occurs "010" lit = false →
  re_sub_at_end lit repl (p +:+ lit) = p +:+ repl.
Proof.
  intros Hne HLF. induction p as [|c p IH]; rewrite re_sub_at_end_unfold.
  - by rewrite !append_nil_l, bool_decide_eq_true_2.
  - rewrite append_cons. rewrite bool_decide_eq_false_2 by apply longer_ne.
    rewrite bool_decide_eq_false_2; [by rewrite IH|].
    intros H. assert (p = "") as ->.
    { apply (f_equal String.length) in H. simpl in H.
      rewrite !length_append in H. simpl in H. destruct p; [done|simpl in H; lia]. }
    rewrite append_nil_l in H. apply rotate_LF in H; congruence.
Qed.

(** The literal just before a final line feed is replaced too. *)
Lemma re_sub_at_end_suffix_LF lit repl p :
  lit ≠ "" → occurs "010" lit = false →
  re_sub_at_end lit repl (p +:+ lit +:+ LF) = p +:+ repl +:+ LF.
Proof.
  intros Hne HLF. induction p as [|c p IH]; rewrite re_sub_at_end_unfold.
  - rewrite !append_nil_l. rewrite bool_decide_eq_false_2.
    + by rewrite bool_decide_eq_true_2.
    + intros H%(f_equal String.length). rewrite length_append in H. simpl in H. lia.
  - rewrite append_cons. rewrite bool_decide_eq_false_2.
    + rewrite bool_decide_eq_false_2 by apply longer_ne. by rewrite IH.
    + intros H%(f_equal String.length). simpl in H.
      rewrite !length_append in H. simpl in H. lia.
Qed.

(** Nothing else is touched. *)
Lemma re_sub_at_end_id lit repl s :
  endswith s lit = false → endswith s (lit +:+ LF) = false →
  re_sub_at_end lit repl s = s.
Proof.
  induction s as [|c s IH]; intros H1 H2; rewrite re_sub_at_end_unfold.
  - rewrite !bool_decide_eq_false_2; [done| |]; by apply endswith_false_ne.
  - rewrite !bool_decide_eq_false_2; [| |]; [|by apply endswith_false_ne..].
    rewrite IH; [done| |]; by eapply endswith_tail.
Qed.

Lemma occurs_chars c s :
  occurs c s = true ↔ c ∈ String.list_ascii_of_string s.
Proof.
  induction s as [|a s IH]; simpl.
  - split; [done|]. by intros ?%elem_of_nil.
  - rewrite orb_true_iff, bool_decide_eq_true, elem_of_cons, IH.
    split; (intros [->|?]; [by left|by right]).
Qed.

Lemma chars_nil s : String.list_ascii_of_string s = [] → s = "".
Proof. by destruct s. Qed.

(** A string that ends in [suffix] does not end in [suffix] and a line
    feed, when [suffix] has no line feed. *)
Lemma endswith_not_LF s suffix other :
  suffix ≠ "" → occurs "010" suffix = false →
  endswith s suffix = true → endswith s (other +:+ LF) = false.
Proof.
  intros Hne HLF [p ->]%endswith_true.
  destruct (endswith _ _) eqn:E; [|done].
  apply endswith_true in E as [q E].
  apply (f_equal String.list_ascii_of_string) in E.
  rewrite !chars_app in E. apply (f_equal last) in E.
  change (String.list_ascii_of_string LF) with ["010"%char] in E.
  rewrite !(assoc_L (++)), last_snoc, last_app in E.
  destruct (last (String.list_ascii_of_string suffix)) as [a|] eqn:El.
  - injection E as ->. apply last_Some_elem_of, occurs_chars in El. congruence.
  - apply last_None, chars_nil in El. done.
Qed.

(** *** Base names *)

Lemma rsplit_sep_app p s :
  occurs sep s = false →
  rsplit_sep (p +:+ s) = ((rsplit_sep p).1, (rsplit_sep p).2 +:+ s).
Proof.
  intros Hs. induction p as [|c p IH].
  - rewrite append_nil_l. simpl. induction s as [|a s IHs]; [done|].
    simpl in Hs. apply orb_false_iff in Hs as [Ha Hs].
    apply bool_decide_eq_false in Ha.
    simpl. rewrite (IHs Hs). simpl. by rewrite decide_False.
  - rewrite append_cons. simpl. rewrite IH.
    destruct (rsplit_sep p) as [head tail]. simpl.
    case_bool_decide; [|done]. by case_decide.
Qed.

Lemma basename_no_sep f : occurs sep f = false → basename f = f.
Proof.
  intros Hf. unfold basename.
  by rewrite <- (append_nil_l f), rsplit_sep_app.
Qed.

Lemma basename_app p s :
  occurs sep s = false → basename (p +:+ s) = basename p +:+ s.
Proof. intros Hs. unfold basename. by rewrite rsplit_sep_app. Qed.

Lemma rsplit_sep_trailing d : rsplit_sep (d +:+ "/") = (d +:+ "/", "").
Proof.
  induction d as [|c d IH]; [done|].
  rewrite append_cons. simpl. rewrite IH.
  rewrite bool_decide_eq_false_2; [done|]. by destruct d.
Qed.

Lemma basename_join d f :
  occurs sep f = false → basename (d +:+ "/" +:+ f) = f.
Proof.
  intros Hf. unfold basename.
  by rewrite <- append_assoc, rsplit_sep_app, rsplit_sep_trailing.
Qed.

(** *** The pattern of one character *)

Lemma re_sub_char_app c repl s t :
  re_sub_char c repl (s +:+ t) = re_sub_char c repl s +:+ re_sub_char c repl t.
Proof.
  induction s as [|a s IH]; [done|].
  rewrite append_cons. simpl. by rewrite IH, append_assoc.
Qed.

Lemma re_sub_char_chars c r s :
  String.list_ascii_of_string (re_sub_char c (String r "") s)
  = (λ a, if decide (a = c) then r else a) <$> String.list_ascii_of_string s.
Proof.
  induction s as [|a s IH]; [done|].
  simpl. rewrite chars_app, IH. by case_decide.
Qed.

Lemma re_sub_char_id c repl s :
  occurs c s = false → re_sub_char c repl s = s.
Proof.
  induction s as [|a s IH]; [done|]. simpl.
  intros [Ha Hs]%orb_false_iff. apply bool_decide_eq_false in Ha.
  by rewrite decide_False, IH.
Qed.

Lemma chars_inj s t :
  String.list_ascii_of_string s = String.list_ascii_of_string t → s = t.
Proof.
  intros H%(f_equal String.string_of_list_ascii).
  by rewrite !String.string_of_list_ascii_of_string in H.
Qed.

Lemma length_chars s :
  length (String.list_ascii_of_string s) = String.length s.
Proof. induction s as [|a s IH]; [done|]. simpl. by rewrite IH. Qed.

Lemma re_sub_char_occurs c r s :
  r ≠ c → occurs c (re_sub_char c (String r "") s) = false.
Proof.
  intros Hr. induction s as [|a s IH]; [done|].
  simpl. rewrite occurs_app, IH, orb_false_r.
  case_decide; simpl; rewrite orb_false_r; by apply bool_decide_eq_false.
Qed.

End StrFacts.

(** ** Facts about computations *)

Section RunFacts.
Context {A B : Type}.

Lemma result_bind (m : Run A) (f : A → Run B) :
  result (m ≫= f) =
  match result m with
  | Returned a => result (f a)
  | Raised e => Raised e
  end.
Proof. unfold result, mbind, Run_bind. by destruct m.2. Qed.

Lemma trace_bind (m : Run A) (f : A → Run B) :
  trace (m ≫= f) =
  match result m with
  | Returned a => trace m ++ trace (f a)
  | Raised e => trace m
  end.
Proof. unfold result, trace, mbind, Run_bind. by destruct m.2. Qed.

Lemma result_try_except (body : Run A) (handler : exn → Run A) :
  result (try_except body handler) =
  match result body with
  | Returned a => Returned a
  | Raised e => result (handler e)
  end.
Proof. unfold result, try_except. by destruct body as [t [a|e]]. Qed.

Lemma result_ret (a : A) : result (mret a : Run A) = Returned a.
Proof. done. Qed.

Lemma result_lift (o : outcome A) : result (lift o) = o.
Proof. done. Qed.

End RunFacts.

Lemma result_print line : result (print line) = Returned tt.
Proof. done. Qed.

Lemma for_each_cons {A S} (x : A) (xs : list A) (body : S → A → Run S) (s : S) :
  for_each (x :: xs) body s = body s x ≫= λ s', for_each xs body s'.
Proof. done. Qed.

(** A loop whose body returns on every element returns. *)
Lemma for_each_unit_returns {A} (xs : list A) (body : unit → A → Run unit) :
  (∀ x, x ∈ xs → result (body tt x) = Returned tt) →
  result (for_each xs body tt) = Returned tt.
Proof.
  induction xs as [|x xs IH]; intros Hbody; [done|].
  simpl. rewrite result_bind, Hbody by left.
  apply IH. intros y Hy. apply Hbody. by right.
Qed.

Lemma elem_of_enumerate {A} (l : list A) (i : nat) (x : A) :
  (i, x) ∈ enumerate l ↔ l !! i = Some x.
Proof.
  unfold enumerate. rewrite elem_of_lookup_imap. split.
  - by intros (j & y & [= -> ->] & ?).
  - intros ?. by exists i, x.
Qed.

Lemma filter_none {A} (P : A → Prop) `{!∀ x, Decision (P x)} (l : list A) :
  (∀ x, x ∈ l → ¬ P x) → filter P l = [].
Proof.
  induction l as [|x l IH]; intros Hl; [done|].
  rewrite filter_cons_False by (apply Hl; left).
  apply IH. intros y Hy. apply Hl. by right.
Qed.

(** ** Facts about the resolver *)

Section Resolver.
Implicit Types (nii dcm : list fileinfo) (n d r : fileinfo) (P : string).

Lemma dcm_fileinfo_map_snoc dcm d :
  dcm_fileinfo_map (dcm ++ [d]) = <[prompt d := d]> (dcm_fileinfo_map dcm).
Proof. unfold dcm_fileinfo_map. by rewrite foldl_snoc. Qed.

(** The dictionary holds, under a prompt, the last record of that prompt. *)
Lemma dcm_fileinfo_map_lookup dcm P :
  dcm_fileinfo_map dcm !! P = last (filter (λ d, prompt d = P) dcm).
Proof.
  induction dcm as [|d dcm IH] using rev_ind; [done|].
  rewrite dcm_fileinfo_map_snoc, filter_app, lookup_insert.
  case_decide as HP.
  - rewrite filter_cons_True, filter_nil by done. by rewrite last_snoc.
  - rewrite filter_cons_False, filter_nil by done. by rewrite app_nil_r.
Qed.

Lemma dcm_fileinfo_map_Some dcm P r :
  dcm_fileinfo_map dcm !! P = Some r → r ∈ dcm ∧ prompt r = P.
Proof.
  rewrite dcm_fileinfo_map_lookup. intros H%last_Some_elem_of.
  by apply list_elem_of_filter in H as [? ?].
Qed.

Lemma dcm_fileinfo_map_None dcm P :
  dcm_fileinfo_map dcm !! P = None ↔ ∀ d, d ∈ dcm → prompt d ≠ P.
Proof.
  rewrite dcm_fileinfo_map_lookup, last_None. split.
  - intros Hnil d Hd HP.
    assert (d ∈ filter (λ d, prompt d = P) dcm) as Hin
      by by apply list_elem_of_filter.
    rewrite Hnil in Hin. by apply elem_of_nil in Hin.
  - apply filter_none.
Qed.

Lemma dcm_fileinfo_map_is_Some dcm d :
  d ∈ dcm → ∃ r, dcm_fileinfo_map dcm !! prompt d = Some r.
Proof.
  intros Hd. destruct (dcm_fileinfo_map dcm !! prompt d) as [r|] eqn:E; [by exists r|].
  exfalso. by eapply dcm_fileinfo_map_None.
Qed.

(** Last write wins. *)
Lemma dcm_fileinfo_map_last dcm1 d dcm2 :
  (∀ d', d' ∈ dcm2 → prompt d' ≠ prompt d) →
  dcm_fileinfo_map (dcm1 ++ d :: dcm2) !! prompt d = Some d.
Proof.
  intros Hlast. rewrite dcm_fileinfo_map_lookup, filter_app, filter_cons_True by done.
  replace (filter _ dcm2) with (@nil fileinfo).
  - by rewrite last_snoc.
  - symmetry. by apply filter_none.
Qed.


Lemma elem_of_pairs nii dcm n x :
  (n, x) ∈ pairs nii dcm ↔ n ∈ nii ∧ x = dcm_fileinfo_map dcm !! prompt n.
Proof.
  unfold pairs. rewrite list_elem_of_fmap. split.
  - by intros (each & [= -> ->] & ?).
  - intros [? ->]. by exists n.
Qed.

Lemma elem_of_valid_pairs nii dcm n x :
  (n, x) ∈ valid_pairs nii dcm ↔
  n ∈ nii ∧ x = dcm_fileinfo_map dcm !! prompt n ∧ x ≠ None.
Proof.
  unfold valid_pairs. rewrite list_elem_of_filter, elem_of_pairs. simpl. tauto.
Qed.

Lemma elem_of_invalid_pairs nii dcm n x :
  (n, x) ∈ invalid_pairs nii dcm ↔
  n ∈ nii ∧ x = None ∧ dcm_fileinfo_map dcm !! prompt n = None.
Proof.
  unfold invalid_pairs. rewrite list_elem_of_filter, elem_of_pairs. simpl.
  split; [intros (-> & ? & ?)|intros (? & -> & ?)]; eauto.
Qed.

Lemma valid_pairs_app nii1 nii2 dcm :
  valid_pairs (nii1 ++ nii2) dcm = valid_pairs nii1 dcm ++ valid_pairs nii2 dcm.
Proof. unfold valid_pairs, pairs. by rewrite fmap_app, filter_app. Qed.

Lemma valid_pairs_cons_Some n nii dcm r :
  dcm_fileinfo_map dcm !! prompt n = Some r →
  valid_pairs (n :: nii) dcm = (n, Some r) :: valid_pairs nii dcm.
Proof.
  intros Hr. unfold valid_pairs, pairs. rewrite fmap_cons, Hr.
  by rewrite filter_cons_True.
Qed.

(** The two reporting loops do not raise: the call returns [valid_pairs]. *)
Lemma _nii_dcm_pairs_result nii dcm :
  result (_nii_dcm_pairs nii dcm) = Returned (valid_pairs nii dcm).
Proof.
  unfold _nii_dcm_pairs.
  rewrite result_bind, for_each_unit_returns.
  - rewrite result_bind, for_each_unit_returns; [done|].
    intros [idx [n x]] Hin%elem_of_enumerate%list_elem_of_lookup_2.
    apply elem_of_valid_pairs in Hin as (_ & _ & Hx).
    by destruct x.
  - by intros [idx [n x]] _.
Qed.

End Resolver.

(** The key of a DICOM directory, segment by segment. *)
Lemma dcm_prompt_segments protocol_name description the_date the_time series_no :
  dcm_prompt protocol_name description the_date the_time series_no
  = String.concat "_"
      (Str.re_sub_char " " "_"
         <$> [protocol_name; description; the_date; the_time; series_no]).
Proof. unfold dcm_prompt. simpl. by rewrite !StrFacts.re_sub_char_app. Qed.

(** ** Key derivation *)

Section KeyDerivation.
Import Str StrFacts.

(** C5, as the code has it.  For every filename that ends in the literal
    suffix [_ss_zmap.nii.gz], the prompt of [_get_nii_fileinfo] is the
    filename with that suffix removed.  For every filename that ends
    neither in that suffix nor in that suffix followed by one final line
    feed, the prompt is the filename unchanged; no filename raises.  The
    names the NIfTI inventory admits end in [.nii.gz], so for them the
    prompt is the filename unchanged whenever the suffix is absent. *)
Theorem C5_nii_prompt :
  (∀ stem, prompt (_get_nii_fileinfo (stem +:+ "_ss_zmap.nii.gz")) = stem) ∧
  (∀ f, endswith f "_ss_zmap.nii.gz" = false →
        endswith f ("_ss_zmap.nii.gz" +:+ LF) = false →
        prompt (_get_nii_fileinfo f) = f) ∧
  (∀ f, endswith f ".nii.gz" = true →
        endswith f "_ss_zmap.nii.gz" = false →
        prompt (_get_nii_fileinfo f) = f).
Proof.
  split_and!.
  - intros stem. simpl.
    rewrite re_sub_at_end_suffix by done. apply append_nil_r.
  - intros f H1 H2. simpl. by apply re_sub_at_end_id.
  - intros f Hnii H1. simpl. apply re_sub_at_end_id; [done|].
    by apply (endswith_not_LF f ".nii.gz").
Qed.

(** C6.  The prompt of a DICOM directory is the five fields joined with
    [_] in the order protocol name, series description, study date, study
    time, series number, in which every space has become [_] and every
    other character is as it was: the result has no space, has the length
    of the joined string, and is the joined string itself when that has no
    space.  Equal fields give an equal prompt. *)
Theorem C6_dcm_prompt
    (protocol_name description the_date the_time series_no : string) :
  let joined :=
    String.concat "_" [protocol_name; description; the_date; the_time; series_no] in
  let key := dcm_prompt protocol_name description the_date the_time series_no in
  String.list_ascii_of_string key
    = (λ a, if decide (a = " "%char) then "_"%char else a)
        <$> String.list_ascii_of_string joined
  ∧ occurs " " key = false
  ∧ String.length key = String.length joined
  ∧ (occurs " " joined = false → key = joined)
  ∧ key = String.concat "_"
            (re_sub_char " " "_"
               <$> [protocol_name; description; the_date; the_time; series_no])
  ∧ (∀ protocol_name' description' the_date' the_time' series_no',
       protocol_name = protocol_name' → description = description' →
       the_date = the_date' → the_time = the_time' → series_no = series_no' →
       key = dcm_prompt protocol_name' description' the_date' the_time' series_no').
Proof.
  intros joined key.
  assert (key = re_sub_char " " "_" joined) as Hkey by done.
  split_and!.
  - by rewrite Hkey, re_sub_char_chars.
  - rewrite Hkey. by apply re_sub_char_occurs.
  - by rewrite <- !length_chars, Hkey, re_sub_char_chars, length_fmap.
  - intros Hno. rewrite Hkey. by apply re_sub_char_id.
  - apply dcm_prompt_segments.
  - by intros ? ? ? ? ? <- <- <- <- <-.
Qed.

End KeyDerivation.

(** The pattern [_ss_zmap\.nii\.gz$] also matches before a final line feed:
    such a filename does not end in the suffix, and its prompt is not the
    filename. *)
Lemma C5_trailing_line_feed :
  Str.endswith ("a_ss_zmap.nii.gz" +:+ Str.LF) "_ss_zmap.nii.gz" = false ∧
  prompt (_get_nii_fileinfo ("a_ss_zmap.nii.gz" +:+ Str.LF)) = "a" +:+ Str.LF ∧
  prompt (_get_nii_fileinfo ("a_ss_zmap.nii.gz" +:+ Str.LF))
    ≠ "a_ss_zmap.nii.gz" +:+ Str.LF.
Proof. split_and!; [reflexivity|reflexivity|discriminate]. Qed.

Lemma C5_nii_prompt_witness :
  prompt (_get_nii_fileinfo "brainA_ss_zmap.nii.gz") = "brainA" ∧
  prompt (_get_nii_fileinfo "notes.txt") = "notes.txt" ∧
  prompt (_get_nii_fileinfo "brainB.nii.gz") = "brainB.nii.gz".
Proof.
  destruct C5_nii_prompt as (Hstrip & Hkeep & Hadmitted). split_and!.
  - exact (Hstrip "brainA").
  - apply (Hkeep "notes.txt"); reflexivity.
  - apply (Hadmitted "brainB.nii.gz"); reflexivity.
Defined.

Lemma C6_dcm_prompt_witness :
  dcm_prompt "T1 MPRAGE" "AX T1" "20200101" "120000" "7"
  = "T1_MPRAGE_AX_T1_20200101_120000_7"
  ∧ dcm_prompt "ADC" "" "20200101" "" "7" = "ADC__20200101__7".
Proof.
  split.
  - destruct (C6_dcm_prompt "T1 MPRAGE" "AX T1" "20200101" "120000" "7")
      as (_ & _ & _ & _ & Hsegments & Hsame).
    pose proof (Hsame "T1 MPRAGE" "AX T1" "20200101" "120000" "7"
                  eq_refl eq_refl eq_refl eq_refl eq_refl) as Hagain.
    exact (eq_trans Hagain Hsegments).
  - destruct (C6_dcm_prompt "ADC" "" "20200101" "" "7")
      as (_ & _ & _ & Hplain & _).
    apply Hplain. reflexivity.
Defined.

(** ** The pair resolver *)

Section PairResolver.
Implicit Types (nii dcm : list fileinfo) (n d r : fileinfo).

(** C1.  [_nii_dcm_pairs] pairs every NIfTI record with the DICOM record
    that the dictionary holds under its prompt and returns exactly the
    matched pairs.  A NIfTI record whose prompt is the prompt of some
    DICOM record is returned, paired with a DICOM record of the inventory
    that has its prompt (that very record when no other record shares the
    prompt), and is not among the unmatched.  A NIfTI record whose prompt
    is the prompt of no DICOM record is among the unmatched and in no
    returned pair. *)
Theorem C1_resolve_pairs nii dcm :
  result (_nii_dcm_pairs nii dcm) = Returned (valid_pairs nii dcm)
  ∧ (∀ n x, (n, x) ∈ valid_pairs nii dcm →
       ∃ r, x = Some r ∧ n ∈ nii ∧ r ∈ dcm ∧ prompt r = prompt n
            ∧ dcm_fileinfo_map dcm !! prompt n = Some r)
  ∧ (∀ n d, n ∈ nii → d ∈ dcm → prompt d = prompt n →
       ∃ r, dcm_fileinfo_map dcm !! prompt n = Some r
            ∧ r ∈ dcm ∧ prompt r = prompt n
            ∧ (n, Some r) ∈ valid_pairs nii dcm
            ∧ (∀ x, (n, x) ∉ invalid_pairs nii dcm)
            ∧ ((∀ d', d' ∈ dcm → prompt d' = prompt d → d' = d) → r = d))
  ∧ (∀ n, n ∈ nii → (∀ d, d ∈ dcm → prompt d ≠ prompt n) →
       (n, None) ∈ invalid_pairs nii dcm
       ∧ ∀ x, (n, x) ∉ valid_pairs nii dcm)
  ∧ (∀ n d, prompt n = prompt d →
       valid_pairs [n] [d] = [(n, Some d)] ∧ invalid_pairs [n] [d] = []).
Proof.
  split_and!.
  - apply _nii_dcm_pairs_result.
  - intros n x (Hn & -> & Hx)%elem_of_valid_pairs.
    destruct (dcm_fileinfo_map dcm !! prompt n) as [r|] eqn:Hr; [|done].
    apply dcm_fileinfo_map_Some in Hr as Hr'. destruct Hr'. by exists r.
  - intros n d Hn Hd Hprompt.
    destruct (dcm_fileinfo_map_is_Some dcm d Hd) as [r Hr].
    rewrite Hprompt in Hr. apply dcm_fileinfo_map_Some in Hr as Hr'.
    destruct Hr' as [Hin Hpr]. exists r. split_and!; try done.
    + apply elem_of_valid_pairs. by rewrite Hr.
    + intros x (_ & _ & Hnone)%elem_of_invalid_pairs. congruence.
    + intros Huniq. apply Huniq; congruence.
  - intros n Hn Hnone. apply dcm_fileinfo_map_None in Hnone. split.
    + by apply elem_of_invalid_pairs.
    + intros x (_ & -> & Hx)%elem_of_valid_pairs. done.
  - intros n d Hprompt. unfold valid_pairs, invalid_pairs, pairs.
    assert (dcm_fileinfo_map [d] !! prompt n = Some d) as Hd.
    { rewrite Hprompt. apply (dcm_fileinfo_map_last [] d []).
      by intros ? ?%elem_of_nil. }
    rewrite list_fmap_singleton, Hd.
    by rewrite filter_cons_True, filter_cons_False by (simpl; auto).
Qed.

(** C2.  When two DICOM records have the same prompt, the later being the
    last of that prompt in traversal order, the dictionary has exactly one
    entry for the prompt, which is the later record, and in the pairs that
    [_nii_dcm_pairs] returns every NIfTI record of that prompt is paired
    with the later record and with no other. *)
Theorem C2_last_write_wins dcm1 d1 dcm2 d2 dcm3 nii :
  prompt d1 = prompt d2 →
  (∀ d, d ∈ dcm3 → prompt d ≠ prompt d2) →
  let dcm := dcm1 ++ d1 :: dcm2 ++ d2 :: dcm3 in
  dcm_fileinfo_map dcm !! prompt d2 = Some d2
  ∧ filter (λ kv, kv.1 = prompt d2) (map_to_list (dcm_fileinfo_map dcm))
      = [(prompt d2, d2)]
  ∧ (∀ n, n ∈ nii → prompt n = prompt d2 →
       (n, Some d2) ∈ valid_pairs nii dcm
       ∧ ∀ x, (n, x) ∈ pairs nii dcm → x = Some d2)
  ∧ ∃ matched,
      result (_nii_dcm_pairs nii dcm) = Returned matched
      ∧ (∀ n, n ∈ nii → prompt n = prompt d2 →
           (n, Some d2) ∈ matched
           ∧ ∀ x, (n, x) ∈ matched → x = Some d2)
      ∧ (d1 ≠ d2 → ∀ n, (n, Some d1) ∉ matched).
Proof.
  intros Hsame Hlast dcm.
  assert (dcm_fileinfo_map dcm !! prompt d2 = Some d2) as Hd2.
  { replace dcm with ((dcm1 ++ d1 :: dcm2) ++ d2 :: dcm3)
      by (unfold dcm; by rewrite <- (assoc_L (++))).
    by apply dcm_fileinfo_map_last. }
  split_and!; [done| | |].
  - set (entries := filter _ _).
    assert (NoDup entries) as Hnodup
      by apply NoDup_filter, NoDup_map_to_list.
    assert (∀ kv, kv ∈ entries ↔ kv = (prompt d2, d2)) as Hentries.
    { intros [k v]. unfold entries.
      rewrite list_elem_of_filter, elem_of_map_to_list. simpl. split.
      - intros [-> Hv]. congruence.
      - by intros [= -> ->]. }
    destruct entries as [|kv1 [|kv2 entries]].
    + exfalso. eapply elem_of_nil. by apply Hentries.
    + f_equal. apply Hentries. by left.
    + exfalso. apply NoDup_cons in Hnodup as [Hnotin _]. apply Hnotin.
      assert (kv1 = (prompt d2, d2)) as -> by (apply Hentries; by left).
      assert (kv2 = (prompt d2, d2)) as -> by (apply Hentries; right; by left).
      by left.
  - intros n Hn Hprompt. split.
    + apply elem_of_valid_pairs. by rewrite Hprompt, Hd2.
    + intros x [_ ->]%elem_of_pairs. by rewrite Hprompt.
  - exists (valid_pairs nii dcm). rewrite _nii_dcm_pairs_result.
    split_and!; [done| |].
    + intros n Hn Hprompt. split.
      * apply elem_of_valid_pairs. by rewrite Hprompt, Hd2.
      * intros x (_ & -> & _)%elem_of_valid_pairs. by rewrite Hprompt.
    + intros Hne n (_ & Hlookup & _)%elem_of_valid_pairs.
      symmetry in Hlookup.
      apply dcm_fileinfo_map_Some in Hlookup as Hkey. destruct Hkey as [_ Hkey].
      rewrite <- Hkey, Hsame, Hd2 in Hlookup. congruence.
Qed.



(** C10.  The resolver does not deduplicate NIfTI records.  The NIfTI
    records of the returned pairs are the input records whose prompt is in
    the dictionary, each as often as it occurs and in the order of the
    input; two records of equal prompt that is in the dictionary are both
    returned, in their input order, paired with the same DICOM record. *)
Theorem C10_no_deduplication nii dcm :
  ∃ matched,
    result (_nii_dcm_pairs nii dcm) = Returned matched
    ∧ matched.*1
        = filter (λ n, is_Some (dcm_fileinfo_map dcm !! prompt n)) nii
    ∧ matched.*1 `sublist_of` nii
    ∧ ∀ nii1 n1 nii2 n2 nii3 d,
        nii = nii1 ++ n1 :: nii2 ++ n2 :: nii3 →
        prompt n1 = prompt n2 →
        dcm_fileinfo_map dcm !! prompt n1 = Some d →
        matched = valid_pairs nii1 dcm ++ (n1, Some d)
                    :: valid_pairs nii2 dcm ++ (n2, Some d)
                    :: valid_pairs nii3 dcm.
Proof.
  exists (valid_pairs nii dcm). rewrite _nii_dcm_pairs_result.
  assert (∀ l, (valid_pairs l dcm).*1
               = filter (λ n, is_Some (dcm_fileinfo_map dcm !! prompt n)) l)
    as Hfst.
  { induction l as [|n l IH]; [done|].
    destruct (dcm_fileinfo_map dcm !! prompt n) as [r|] eqn:Hr.
    - rewrite (valid_pairs_cons_Some _ _ _ r), filter_cons_True by (by rewrite ?Hr).
      rewrite fmap_cons. simpl. by rewrite IH.
    - rewrite filter_cons_False by (rewrite Hr; by intros [? ?]).
      rewrite <- IH. unfold valid_pairs, pairs.
      rewrite fmap_cons, Hr. by rewrite filter_cons_False by (simpl; auto). }
  split_and!; [done|apply Hfst| |].
  - rewrite Hfst. apply sublist_filter.
  - intros nii1 n1 nii2 n2 nii3 d -> Hsame Hd.
    rewrite valid_pairs_app, (valid_pairs_cons_Some n1 _ _ d Hd).
    rewrite valid_pairs_app, (valid_pairs_cons_Some n2 _ _ d); [done|].
    by rewrite <- Hsame.
Qed.

End PairResolver.


Lemma C1_resolve_pairs_witness :
  (Sample.nii_A, Some Sample.dcm_A1)
    ∈ valid_pairs [Sample.nii_A; Sample.nii_B] [Sample.dcm_A1]
  ∧ (Sample.nii_B, None)
      ∈ invalid_pairs [Sample.nii_A; Sample.nii_B] [Sample.dcm_A1].
Proof.
  destruct (C1_resolve_pairs [Sample.nii_A; Sample.nii_B] [Sample.dcm_A1])
    as (_ & _ & Hmatched & Hunmatched & _).
  split.
  - destruct (Hmatched Sample.nii_A Sample.dcm_A1) as (r & _ & _ & _ & Hin & _ & Hr).
    + by left.
    + by left.
    + reflexivity.
    + assert (r = Sample.dcm_A1) as ->; [|exact Hin].
      apply Hr. by intros d' ->%list_elem_of_singleton.
  - apply Hunmatched.
    + right. by left.
    + intros d ->%list_elem_of_singleton. discriminate.
Defined.

Lemma C2_last_write_wins_witness :
  dcm_fileinfo_map [Sample.dcm_A1; Sample.dcm_C; Sample.dcm_A2] !! "brainA"
    = Some Sample.dcm_A2
  ∧ ∃ matched,
      result (_nii_dcm_pairs [Sample.nii_A; Sample.nii_B; Sample.nii_A]
                [Sample.dcm_A1; Sample.dcm_C; Sample.dcm_A2])
        = Returned matched
      ∧ matched = [(Sample.nii_A, Some Sample.dcm_A2);
                   (Sample.nii_A, Some Sample.dcm_A2)]
      ∧ (Sample.nii_A, Some Sample.dcm_A2) ∈ matched
      ∧ (Sample.nii_A, Some Sample.dcm_A1) ∉ matched.
Proof.
  destruct (C2_last_write_wins [] Sample.dcm_A1 [Sample.dcm_C] Sample.dcm_A2 []
              [Sample.nii_A; Sample.nii_B; Sample.nii_A])
    as (Hlookup & _ & _ & matched & Hresult & Hpaired & Hearlier).
  - reflexivity.
  - by intros d ?%elem_of_nil.
  - split; [exact Hlookup|]. exists matched. split_and!.
    + exact Hresult.
    + rewrite _nii_dcm_pairs_result in Hresult. injection Hresult as <-.
      vm_compute. reflexivity.
    + apply Hpaired; [by left|reflexivity].
    + apply Hearlier. discriminate.
Defined.


Lemma C10_no_deduplication_witness :
  ∃ matched,
    result (_nii_dcm_pairs [Sample.nii_A'; Sample.nii_B; Sample.nii_A2]
              [Sample.dcm_C]) = Returned matched
    ∧ matched = [(Sample.nii_A', Some Sample.dcm_C);
                 (Sample.nii_A2, Some Sample.dcm_C)].
Proof.
  destruct (C10_no_deduplication [Sample.nii_A'; Sample.nii_B; Sample.nii_A2]
              [Sample.dcm_C]) as (matched & Hresult & _ & _ & Hboth).
  exists matched. split; [exact Hresult|].
  rewrite (Hboth [] Sample.nii_A' [Sample.nii_B] Sample.nii_A2 [] Sample.dcm_C).
  - vm_compute. reflexivity.
  - reflexivity.
  - vm_compute. reflexivity.
  - vm_compute. reflexivity.
Defined.

(** ** Computations that do not call the conversion routine *)

Lemma conversions_app t1 t2 :
  conversions (t1 ++ t2) = conversions t1 ++ conversions t2.
Proof. apply omap_app. Qed.

Section Quiet.
Context {A B : Type}.

Lemma quiet_ret (a : A) : quiet (mret a : Run A).
Proof. done. Qed.

Lemma quiet_lift (o : outcome A) : quiet (lift o).
Proof. done. Qed.

Lemma quiet_raise (e : exn) : quiet (raise e : Run A).
Proof. done. Qed.

Lemma quiet_bind (m : Run A) (f : A → Run B) :
  quiet m → (∀ a, quiet (f a)) → quiet (m ≫= f).
Proof.
  unfold quiet. intros Hm Hf. rewrite trace_bind.
  destruct (result m); [|done]. by rewrite conversions_app, Hm, Hf.
Qed.

Lemma quiet_try_except (body : Run A) (handler : exn → Run A) :
  quiet body → (∀ e, quiet (handler e)) → quiet (try_except body handler).
Proof.
  unfold quiet, trace, try_except. intros Hbody Hhandler.
  destruct body as [t [a|e]]; [done|]. simpl in *.
  by rewrite conversions_app, Hbody, Hhandler.
Qed.

End Quiet.

Lemma quiet_for_each {A S} (xs : list A) (body : S → A → Run S) (s : S) :
  (∀ s x, quiet (body s x)) → quiet (for_each xs body s).
Proof.
  intros Hbody. revert s. induction xs as [|x xs IH]; intros s; [done|].
  simpl. by apply quiet_bind.
Qed.

Lemma quiet_print line : quiet (print line).
Proof. done. Qed.

Lemma quiet_subscript d key : quiet (subscript d key).
Proof. by destruct d. Qed.

Create HintDb quiet.
#[global] Hint Resolve quiet_ret quiet_lift quiet_raise quiet_print quiet_subscript
  quiet_bind quiet_try_except quiet_for_each : quiet.

Lemma _nii_dcm_pairs_quiet nii_fileinfos dcm_fileinfos :
  quiet (_nii_dcm_pairs nii_fileinfos dcm_fileinfos).
Proof.
  unfold _nii_dcm_pairs.
  apply quiet_bind; [|intros _; apply quiet_bind; [|auto with quiet]];
    apply quiet_for_each; intros _ [idx [n x]]; auto with quiet.
Qed.

(** ** Facts about the inventories and the driver *)

Section AppFacts.
Import Str StrFacts.

Context (os_listdir : string → outcome (list string)).
Context (os_walk : string → list (string * list string * list string)).
Context (dcm_dcmread : string → outcome Dataset).
Context (run_nii2dcm : Path → Path → string → Path → outcome unit).

(** *** The NIfTI inventory *)

Lemma _get_nii_fileinfos_result inputdir :
  result (_get_nii_fileinfos os_listdir inputdir) =
  match os_listdir inputdir with
  | Returned filenames =>
      Returned (_get_nii_fileinfo
                  <$> filter (λ x, Is_true (endswith x ".nii.gz")) filenames)
  | Raised e => Raised e
  end.
Proof.
  unfold _get_nii_fileinfos. rewrite result_bind, result_lift.
  by destruct (os_listdir inputdir).
Qed.

Lemma _get_nii_fileinfos_quiet inputdir : quiet (_get_nii_fileinfos os_listdir inputdir).
Proof. unfold _get_nii_fileinfos. auto with quiet. Qed.

Lemma _get_nii_fileinfos_elem inputdir nii_fileinfos n :
  result (_get_nii_fileinfos os_listdir inputdir) = Returned nii_fileinfos →
  n ∈ nii_fileinfos →
  ∃ filenames f,
    os_listdir inputdir = Returned filenames ∧ f ∈ filenames
    ∧ endswith f ".nii.gz" = true ∧ n = _get_nii_fileinfo f.
Proof.
  rewrite _get_nii_fileinfos_result.
  destruct (os_listdir inputdir) as [filenames|e]; [|done].
  intros [= <-] (f & -> & [Hf Hin]%list_elem_of_filter)%list_elem_of_fmap.
  exists filenames, f. split_and!; try done. by apply Is_true_true.
Qed.

(** The output directory of a name that ends in [.nii.gz]. *)
Lemma _get_outdir_stem outputdir nii_filename :
  endswith nii_filename ".nii.gz" = true →
  ∃ stem, basename nii_filename = stem +:+ ".nii.gz"
          ∧ _get_outdir outputdir nii_filename = outputdir +:+ "/" +:+ stem.
Proof.
  intros [p ->]%endswith_true. exists (basename p).
  unfold _get_outdir. rewrite basename_app by done. split; [done|].
  by rewrite re_sub_at_end_suffix, append_nil_r.
Qed.

(** *** The DICOM inventory *)

(** Reading the data set is the one step of [_get_dcm_fileinfo] that can
    raise; every read of a field is caught. *)
Lemma _get_dcm_fileinfo_result path :
  result (_get_dcm_fileinfo dcm_dcmread path) =
  match dcm_dcmread path with
  | Raised e => Raised e
  | Returned the_dcm =>
      Returned
        {| filename := path;
           prompt :=
             dcm_prompt
               (protocol_segment the_dcm)
               (printed_or (data_element_value the_dcm "SeriesDescription") "")
               (printed_or (item_value the_dcm 0x08 0x20) "")
               (printed_or (item_value the_dcm 0x08 0x30) "")
               (printed_or (item_value the_dcm 0x20 0x11) "");
           base_filename := basename (dirname path) +:+ "/" +:+ basename path |}
  end.
Proof.
  unfold _get_dcm_fileinfo, protocol_segment.
  rewrite result_bind, result_lift.
  destruct (dcm_dcmread path) as [the_dcm|e]; [|done].
  destruct (data_element_value the_dcm "ProtocolName") as [[?|]|?],
    (data_element_value the_dcm "SequenceName"),
    (data_element_value the_dcm "SeriesDescription"),
    (item_value the_dcm 0x08 0x20), (item_value the_dcm 0x08 0x30),
    (item_value the_dcm 0x20 0x11); reflexivity.
Qed.

Lemma _get_dcm_fileinfo_quiet path : quiet (_get_dcm_fileinfo dcm_dcmread path).
Proof.
  unfold _get_dcm_fileinfo.
  apply quiet_bind; [auto with quiet|intros the_dcm].
  apply quiet_bind; [auto 6 with quiet|intros protocol_name].
  apply quiet_bind; [destruct protocol_name; auto 6 with quiet|intros ?].
  repeat (apply quiet_bind; [auto 6 with quiet|intros ?]).
  auto with quiet.
Qed.

Lemma _get_dcm_fileinfos_body_result dcm_fileinfos root the_dirs the_filenames :
  result (_get_dcm_fileinfos_body dcm_dcmread dcm_fileinfos
            (root, the_dirs, the_filenames)) =
  match head (filter (λ x, Is_true (endswith x ".dcm")) the_filenames) with
  | None => Returned dcm_fileinfos
  | Some first =>
      match result (_get_dcm_fileinfo dcm_dcmread (root +:+ "/" +:+ first)) with
      | Returned r => Returned (dcm_fileinfos ++ [r])
      | Raised e => Raised e
      end
  end.
Proof.
  unfold _get_dcm_fileinfos_body.
  destruct (filter _ the_filenames) as [|first rest]; [done|].
  simpl. rewrite result_bind. by destruct (result _).
Qed.

Lemma _get_dcm_fileinfos_body_quiet dcm_fileinfos entry :
  quiet (_get_dcm_fileinfos_body dcm_dcmread dcm_fileinfos entry).
Proof.
  destruct entry as [[root the_dirs] the_filenames].
  unfold _get_dcm_fileinfos_body.
  destruct (filter _ the_filenames); [auto with quiet|].
  apply quiet_bind; [apply _get_dcm_fileinfo_quiet|auto with quiet].
Qed.

Lemma _get_dcm_fileinfos_quiet inputdir :
  quiet (_get_dcm_fileinfos os_walk dcm_dcmread inputdir).
Proof.
  unfold _get_dcm_fileinfos. apply quiet_bind; [|auto with quiet].
  apply quiet_for_each. intros. apply _get_dcm_fileinfos_body_quiet.
Qed.

(** The loop appends to the list it was started with. *)
Lemma _get_dcm_fileinfos_body_shift dcm_fileinfos entry :
  result (_get_dcm_fileinfos_body dcm_dcmread dcm_fileinfos entry) =
  match result (_get_dcm_fileinfos_body dcm_dcmread [] entry) with
  | Returned contributed => Returned (dcm_fileinfos ++ contributed)
  | Raised e => Raised e
  end.
Proof.
  destruct entry as [[root the_dirs] the_filenames].
  rewrite !_get_dcm_fileinfos_body_result.
  destruct (head _); [|by rewrite app_nil_r]. by destruct (result _).
Qed.

Lemma walk_loop_shift walk dcm_fileinfos :
  result (for_each walk (_get_dcm_fileinfos_body dcm_dcmread) dcm_fileinfos) =
  match result (for_each walk (_get_dcm_fileinfos_body dcm_dcmread) []) with
  | Returned later => Returned (dcm_fileinfos ++ later)
  | Raised e => Raised e
  end.
Proof.
  revert dcm_fileinfos. induction walk as [|entry walk IH]; intros acc.
  - simpl. by rewrite app_nil_r.
  - simpl. rewrite !result_bind, (_get_dcm_fileinfos_body_shift acc).
    destruct (result (_get_dcm_fileinfos_body dcm_dcmread [] entry))
      as [contributed|e]; [|done].
    rewrite (IH (acc ++ contributed)), (IH contributed).
    destruct (result (for_each walk _ [])); [|done].
    by rewrite (assoc_L (++)).
Qed.

Lemma walk_loop_cons entry walk :
  result (for_each (entry :: walk) (_get_dcm_fileinfos_body dcm_dcmread) []) =
  match result (_get_dcm_fileinfos_body dcm_dcmread [] entry) with
  | Returned contributed =>
      match result (for_each walk (_get_dcm_fileinfos_body dcm_dcmread) []) with
      | Returned later => Returned (contributed ++ later)
      | Raised e => Raised e
      end
  | Raised e => Raised e
  end.
Proof.
  simpl. rewrite result_bind. destruct (result (_get_dcm_fileinfos_body _ _ _)); [|done].
  apply walk_loop_shift.
Qed.

Lemma walk_loop_app walk1 walk2 :
  result (for_each (walk1 ++ walk2) (_get_dcm_fileinfos_body dcm_dcmread) []) =
  match result (for_each walk1 (_get_dcm_fileinfos_body dcm_dcmread) []) with
  | Returned earlier =>
      match result (for_each walk2 (_get_dcm_fileinfos_body dcm_dcmread) []) with
      | Returned later => Returned (earlier ++ later)
      | Raised e => Raised e
      end
  | Raised e => Raised e
  end.
Proof.
  induction walk1 as [|entry walk1 IH].
  - rewrite app_nil_l. simpl. by destruct (result _).
  - rewrite <- app_comm_cons, !walk_loop_cons, IH.
    destruct (result (_get_dcm_fileinfos_body _ _ _)); [|done].
    destruct (result (for_each walk1 _ _)); [|done].
    destruct (result (for_each walk2 _ _)); [|done].
    by rewrite (assoc_L (++)).
Qed.

Lemma _get_dcm_fileinfos_result inputdir :
  result (_get_dcm_fileinfos os_walk dcm_dcmread inputdir) =
  result (for_each (os_walk inputdir) (_get_dcm_fileinfos_body dcm_dcmread) []).
Proof.
  unfold _get_dcm_fileinfos. rewrite result_bind.
  by destruct (result (for_each _ _ _)).
Qed.

(** *** The conversion driver *)

Lemma main_body_Some outputdir n d :
  main_body run_nii2dcm outputdir tt (n, Some d) =
  ([Nii2dcm (mkPath (filename n)) (mkPath (_get_outdir outputdir (filename n)))
      "MR" (mkPath (filename d))],
   run_nii2dcm (mkPath (filename n)) (mkPath (_get_outdir outputdir (filename n)))
     "MR" (mkPath (filename d))).
Proof. reflexivity. Qed.

(** The loop of [main] calls the routine for the pairs in order, up to and
    with the first call that raises. *)
Lemma main_loop outputdir ps :
  Forall (λ p : fileinfo * option fileinfo, p.2 ≠ None) ps →
  ∃ processed,
    processed `prefix_of` ps
    ∧ conversions (trace (for_each ps (main_body run_nii2dcm outputdir) tt))
      = (λ p : fileinfo * option fileinfo,
           (mkPath (filename p.1),
            mkPath (_get_outdir outputdir (filename p.1)),
            "MR", mkPath (from_option filename "" p.2))) <$> processed
    ∧ ((∀ a b c d, run_nii2dcm a b c d = Returned tt) →
       processed = ps
       ∧ result (for_each ps (main_body run_nii2dcm outputdir) tt) = Returned tt).
Proof.
  induction 1 as [|[n [d|]] ps Hp Hps (processed & Hprefix & Hcalls & Hall)].
  - exists []. by split_and!.
  - rewrite for_each_cons, trace_bind, result_bind, main_body_Some.
    unfold trace at 1 3, result at 1 2. simpl fst. simpl snd.
    destruct (run_nii2dcm _ _ _ _) as [[]|e] eqn:Hrun.
    + exists ((n, Some d) :: processed). split_and!.
      * by apply prefix_cons.
      * rewrite conversions_app, Hcalls. done.
      * intros Hnever. destruct (Hall Hnever) as [-> ?]. done.
    + exists [(n, Some d)]. split_and!.
      * apply prefix_cons, prefix_nil.
      * done.
      * intros Hnever. rewrite Hnever in Hrun. done.
  - done.
Qed.

Lemma main_conversions inputdir outputdir :
  conversions
    (trace (main os_listdir os_walk dcm_dcmread run_nii2dcm inputdir outputdir)) =
  match result (_get_nii_fileinfos os_listdir inputdir),
        result (_get_dcm_fileinfos os_walk dcm_dcmread inputdir) with
  | Returned nii_fileinfos, Returned dcm_fileinfos =>
      conversions
        (trace (for_each (valid_pairs nii_fileinfos dcm_fileinfos)
                  (main_body run_nii2dcm outputdir) tt))
  | _, _ => []
  end.
Proof.
  pose proof (_get_nii_fileinfos_quiet inputdir) as Hnii.
  pose proof (_get_dcm_fileinfos_quiet inputdir) as Hdcm.
  unfold quiet in Hnii, Hdcm. unfold main. rewrite trace_bind.
  destruct (result (_get_nii_fileinfos _ _)) as [nii_fileinfos|e]; [|done].
  rewrite conversions_app, Hnii, trace_bind.
  destruct (result (_get_dcm_fileinfos _ _ _)) as [dcm_fileinfos|e]; [|done].
  rewrite conversions_app, Hdcm, trace_bind, _nii_dcm_pairs_result.
  rewrite conversions_app, (_nii_dcm_pairs_quiet nii_fileinfos dcm_fileinfos).
  by rewrite trace_bind, result_print, conversions_app.
Qed.

Lemma main_result inputdir outputdir :
  result (main os_listdir os_walk dcm_dcmread run_nii2dcm inputdir outputdir) =
  match result (_get_nii_fileinfos os_listdir inputdir),
        result (_get_dcm_fileinfos os_walk dcm_dcmread inputdir) with
  | Returned nii_fileinfos, Returned dcm_fileinfos =>
      result (for_each (valid_pairs nii_fileinfos dcm_fileinfos)
                (main_body run_nii2dcm outputdir) tt)
  | Raised e, _ => Raised e
  | _, Raised e => Raised e
  end.
Proof.
  unfold main. rewrite result_bind.
  destruct (result (_get_nii_fileinfos _ _)) as [nii_fileinfos|e]; [|done].
  rewrite result_bind.
  destruct (result (_get_dcm_fileinfos _ _ _)) as [dcm_fileinfos|e]; [|done].
  by rewrite result_bind, _nii_dcm_pairs_result, result_bind, result_print.
Qed.

Lemma valid_pairs_Forall nii_fileinfos dcm_fileinfos :
  Forall (λ p : fileinfo * option fileinfo, p.2 ≠ None)
    (valid_pairs nii_fileinfos dcm_fileinfos).
Proof.
  apply Forall_forall. intros [n x] Hin.
  by apply elem_of_valid_pairs in Hin as (_ & _ & ?).
Qed.

(** *** Directories whose [.dcm] files can be read *)

Lemma head_filter_first {A} (P : A → Prop) `{!∀ x, Decision (P x)}
    (pre : list A) (first : A) (post : list A) :
  (∀ x, x ∈ pre → ¬ P x) → P first →
  head (filter P (pre ++ first :: post)) = Some first.
Proof.
  intros Hpre Hfirst.
  by rewrite filter_app, (filter_none P pre), filter_cons_True.
Qed.

(** Every record of the inventory stands for the first [.dcm] entry of a
    directory of the walk, under the path [root/entry]. *)
Lemma walk_loop_elem walk dcm_fileinfos d :
  result (for_each walk (_get_dcm_fileinfos_body dcm_dcmread) [])
    = Returned dcm_fileinfos →
  d ∈ dcm_fileinfos →
  ∃ root the_dirs the_filenames first,
    (root, the_dirs, the_filenames) ∈ walk
    ∧ head (filter (λ x, Is_true (endswith x ".dcm")) the_filenames) = Some first
    ∧ filename d = root +:+ "/" +:+ first.
Proof.
  revert dcm_fileinfos.
  induction walk as [|[[root the_dirs] the_filenames] walk IH];
    intros dcm_fileinfos.
  - intros [= <-] ?%elem_of_nil. done.
  - rewrite walk_loop_cons, _get_dcm_fileinfos_body_result.
    destruct (head _) as [first|] eqn:Hhead.
    + rewrite _get_dcm_fileinfo_result.
      destruct (dcm_dcmread _) as [the_dcm|e]; [|done].
      destruct (result (for_each walk _ _)) as [later|e]; [|done].
      intros [= <-] [->|Hin]%elem_of_cons.
      * exists root, the_dirs, the_filenames, first. split_and!; [by left|done|done].
      * destruct (IH later eq_refl Hin) as (root' & ds & fs & first' & ? & ? & ?).
        exists root', ds, fs, first'. split_and!; [by right|done|done].
    + destruct (result (for_each walk _ _)) as [later|e]; [|done].
      intros [= <-] Hin.
      destruct (IH later eq_refl Hin) as (root' & ds & fs & first' & ? & ? & ?).
      exists root', ds, fs, first'. split_and!; [by right|done|done].
Qed.

End AppFacts.

(** ** The inventories and the conversion driver *)

Section Inventory.
Import Str.

Context (os_listdir : string → outcome (list string)).
Context (os_walk : string → list (string * list string * list string)).
Context (dcm_dcmread : string → outcome Dataset).
Context (run_nii2dcm : Path → Path → string → Path → outcome unit).

(** C4.  Once the file is read as a data set, [_get_dcm_fileinfo] returns
    a record whatever the reads of the fields give.  The protocol name is
    the value of [ProtocolName]; when that read raises (or gives [None],
    which line 119 treats alike) it is the value of [SequenceName], and
    when that read raises too it is the empty string.  Each of the four
    other fields is its value, else the empty string when the read raises.
    The prompt is the five segments in their order, joined with [_]; a
    field whose read raised gives the empty segment at its position, so
    that a data set with no readable field has the prompt [____]. *)
Theorem C4_metadata_fallbacks path the_dcm :
  dcm_dcmread path = Returned the_dcm →
  let protocol_name := protocol_segment the_dcm in
  let description := printed_or (data_element_value the_dcm "SeriesDescription") "" in
  let the_date := printed_or (item_value the_dcm 0x08 0x20) "" in
  let the_time := printed_or (item_value the_dcm 0x08 0x30) "" in
  let series_no := printed_or (item_value the_dcm 0x20 0x11) "" in
  ∃ r,
    result (_get_dcm_fileinfo dcm_dcmread path) = Returned r
    ∧ filename r = path
    ∧ prompt r
      = String.concat "_"
          (re_sub_char " " "_"
             <$> [protocol_name; description; the_date; the_time; series_no])
    ∧ (∀ v, data_element_value the_dcm "ProtocolName" = Returned (Some v) →
            protocol_name = v)
    ∧ (∀ e v, data_element_value the_dcm "ProtocolName" = Raised e →
              data_element_value the_dcm "SequenceName" = Returned v →
              protocol_name = format_value v)
    ∧ (∀ e e', data_element_value the_dcm "ProtocolName" = Raised e →
               data_element_value the_dcm "SequenceName" = Raised e' →
               protocol_name = "")
    ∧ (∀ v, data_element_value the_dcm "ProtocolName" = Returned None →
            data_element_value the_dcm "SequenceName" = Returned v →
            protocol_name = format_value v)
    ∧ (∀ e, data_element_value the_dcm "ProtocolName" = Returned None →
            data_element_value the_dcm "SequenceName" = Raised e →
            protocol_name = "")
    ∧ ((∀ e, data_element_value the_dcm "SeriesDescription" = Raised e →
             description = "")
       ∧ (∀ e, item_value the_dcm 0x08 0x20 = Raised e → the_date = "")
       ∧ (∀ e, item_value the_dcm 0x08 0x30 = Raised e → the_time = "")
       ∧ (∀ e, item_value the_dcm 0x20 0x11 = Raised e → series_no = ""))
    ∧ ((∀ kw, ∃ e, data_element_value the_dcm kw = Raised e) →
       (∀ group elem, ∃ e, item_value the_dcm group elem = Raised e) →
       prompt r = "____").
Proof.
  intros Hread. simpl. rewrite _get_dcm_fileinfo_result, Hread.
  eexists. split_and!; [done|done|apply dcm_prompt_segments|..].
  - unfold protocol_segment. by intros v ->.
  - unfold protocol_segment. by intros e v -> ->.
  - unfold protocol_segment. by intros e e' -> ->.
  - unfold protocol_segment. by intros v -> ->.
  - unfold protocol_segment. by intros e -> ->.
  - by intros e ->.
  - by intros e ->.
  - by intros e ->.
  - by intros e ->.
  - intros Hkw Htag. simpl. unfold protocol_segment.
    destruct (Hkw "ProtocolName") as [? ->], (Hkw "SequenceName") as [? ->],
      (Hkw "SeriesDescription") as [? ->], (Htag 0x08 0x20)%N as [? ->],
      (Htag 0x08 0x30)%N as [? ->], (Htag 0x20 0x11)%N as [? ->].
    reflexivity.
Qed.

(** C8.  When both inventories return, the calls that [main] makes to the
    conversion routine are, in order, those of the matched pairs, up to
    the first call that raises: for each such pair the arguments are the
    filename of the NIfTI record, the output directory joined with [/] and
    the base name of the NIfTI file without its final [.nii.gz], the
    literal [MR], and the filename of the paired DICOM record.  When no
    call raises, every matched pair is served and [main] returns. *)
Theorem C8_conversion_calls inputdir outputdir nii_fileinfos dcm_fileinfos :
  result (_get_nii_fileinfos os_listdir inputdir) = Returned nii_fileinfos →
  result (_get_dcm_fileinfos os_walk dcm_dcmread inputdir) = Returned dcm_fileinfos →
  ∃ processed,
    processed `prefix_of` valid_pairs nii_fileinfos dcm_fileinfos
    ∧ Forall2
        (λ (p : fileinfo * option fileinfo) (call : Path * Path * string * Path),
           ∃ d stem,
             p.2 = Some d
             ∧ base_filename p.1 = stem +:+ ".nii.gz"
             ∧ call = (mkPath (filename p.1),
                       mkPath (outputdir +:+ "/" +:+ stem),
                       "MR", mkPath (filename d)))
        processed
        (conversions
           (trace (main os_listdir os_walk dcm_dcmread run_nii2dcm
                     inputdir outputdir)))
    ∧ ((∀ a b c d, run_nii2dcm a b c d = Returned tt) →
       processed = valid_pairs nii_fileinfos dcm_fileinfos
       ∧ result (main os_listdir os_walk dcm_dcmread run_nii2dcm
                   inputdir outputdir) = Returned tt).
Proof.
  intros Hnii Hdcm.
  destruct (main_loop run_nii2dcm outputdir (valid_pairs nii_fileinfos dcm_fileinfos))
    as (processed & Hprefix & Hcalls & Hall);
    [apply valid_pairs_Forall|].
  exists processed. rewrite main_conversions, main_result, Hnii, Hdcm.
  split_and!; [done| |done].
  rewrite Hcalls. apply Forall2_fmap_r, Forall_Forall2_diag, Forall_forall.
  intros [n x] Hin.
  assert ((n, x) ∈ valid_pairs nii_fileinfos dcm_fileinfos) as Hvalid.
  { destruct Hprefix as [rest ->]. apply elem_of_app. by left. }
  apply elem_of_valid_pairs in Hvalid as (Hn & _ & Hx).
  destruct x as [d|]; [|done].
  destruct (_get_nii_fileinfos_elem _ _ _ _ Hnii Hn)
    as (filenames & f & _ & _ & Hf & ->).
  destruct (_get_outdir_stem outputdir f Hf) as (stem & Hbase & Hout).
  exists d, stem. simpl. by rewrite Hout.
Qed.

End Inventory.

(** ** The claims on the sample input directory *)

Lemma C4_metadata_fallbacks_witness :
  (∃ r, result (_get_dcm_fileinfo Sample.dcm_dcmread "/in/seriesX/scan1.dcm")
          = Returned r
        ∧ prompt r = "ep_b1000_ADC_20200101__7")
  ∧ (∃ r, result (_get_dcm_fileinfo (λ _, Returned Sample.blank_dcm) "scan.dcm")
            = Returned r
          ∧ prompt r = "____")
  ∧ (∃ r, result (_get_dcm_fileinfo (λ _, Returned Sample.none_dcm) "scan.dcm")
            = Returned r
          ∧ prompt r = "SequenceName_SeriesDescription_1_1_1").
Proof.
  split_and!.
  - destruct (C4_metadata_fallbacks Sample.dcm_dcmread "/in/seriesX/scan1.dcm"
                Sample.the_dcm eq_refl) as (r & Hr & _ & Hprompt & _).
    exists r. split; [exact Hr|]. rewrite Hprompt. vm_compute. reflexivity.
  - destruct (C4_metadata_fallbacks (λ _, Returned Sample.blank_dcm) "scan.dcm"
                Sample.blank_dcm eq_refl)
      as (r & Hr & _ & _ & _ & _ & _ & _ & _ & _ & Hblank).
    exists r. split; [exact Hr|]. apply Hblank.
    + intros kw. eexists. reflexivity.
    + intros group elem. eexists. reflexivity.
  - destruct (C4_metadata_fallbacks (λ _, Returned Sample.none_dcm) "scan.dcm"
                Sample.none_dcm eq_refl)
      as (r & Hr & _ & Hprompt & _ & _ & _ & Hnone & _).
    exists r. split; [exact Hr|]. rewrite Hprompt.
    rewrite (Hnone (Some "SequenceName") eq_refl eq_refl).
    vm_compute. reflexivity.
Defined.

Lemma C8_conversion_calls_witness :
  result (main Sample.os_listdir Sample.os_walk Sample.dcm_dcmread
            Sample.run_nii2dcm "/in" "/out") = Returned tt
  ∧ length (conversions
              (trace (main Sample.os_listdir Sample.os_walk Sample.dcm_dcmread
                        Sample.run_nii2dcm "/in" "/out"))) = 1
  ∧ conversions
      (trace (main Sample.os_listdir Sample.os_walk Sample.dcm_dcmread
                Sample.run_nii2dcm "/in" "/out"))
    = [(mkPath "ep_b1000_ADC_20200101__7_ss_zmap.nii.gz",
        mkPath "/out/ep_b1000_ADC_20200101__7_ss_zmap",
        "MR", mkPath "/in/seriesX/scan1.dcm")].
Proof.
  destruct (C8_conversion_calls Sample.os_listdir Sample.os_walk Sample.dcm_dcmread
              Sample.run_nii2dcm "/in" "/out"
              [_get_nii_fileinfo "ep_b1000_ADC_20200101__7_ss_zmap.nii.gz";
               _get_nii_fileinfo "brainB_ss_zmap.nii.gz"]
              [{| filename := "/in/seriesX/scan1.dcm";
                  prompt := "ep_b1000_ADC_20200101__7";
                  base_filename := "seriesX/scan1.dcm" |}])
    as (processed & _ & Hcalls & Hall).
  - vm_compute. reflexivity.
  - vm_compute. reflexivity.
  - destruct Hall as [-> Hreturns]; [reflexivity|].
    split_and!; [exact Hreturns| |vm_compute; reflexivity].
    apply Forall2_length in Hcalls. rewrite <- Hcalls. vm_compute. reflexivity.
Defined.

(** ** Further properties of the resolver *)

Lemma trace_ret {A} (a : A) : trace (mret a : Run A) = [].
Proof. done. Qed.

(** A loop that prints one line for each element. *)
Lemma for_each_prints {A} (xs : list A) (body : unit → A → Run unit)
    (line : A → string) :
  (∀ x, x ∈ xs → body tt x = print (line x)) →
  for_each xs body tt = ((λ x, Stdout (line x)) <$> xs, Returned tt).
Proof.
  induction xs as [|x xs IH]; intros Hbody; [done|].
  rewrite for_each_cons, Hbody by left.
  unfold mbind, Run_bind, print. simpl.
  rewrite IH; [done|]. intros y Hy. apply Hbody. by right.
Qed.

Section ResolverReport.
Implicit Types (nii dcm : list fileinfo) (n d r : fileinfo).

Lemma pairs_fst nii dcm : (pairs nii dcm).*1 = nii.
Proof.
  unfold pairs. rewrite <- list_fmap_compose. apply list_fmap_id.
Qed.

Lemma pairs_partition nii dcm :
  valid_pairs nii dcm ++ invalid_pairs nii dcm ≡ₚ pairs nii dcm.
Proof.
  unfold valid_pairs, invalid_pairs.
  rewrite (comm (++)). apply filter_app_complement.
Qed.

Lemma pairs_partition_length nii dcm :
  length (valid_pairs nii dcm) + length (invalid_pairs nii dcm) = length nii.
Proof.
  rewrite <- length_app, pairs_partition. unfold pairs. apply length_fmap.
Qed.


(** X1.  The resolver classifies every NIfTI record exactly once: the
    matched pairs and the unmatched pairs together are a permutation of the
    list that pairs each input record with its lookup, so their lengths add
    up to the number of NIfTI records, and no pair is both matched and
    unmatched. *)
Theorem X1_pairs_partition nii dcm :
  ∃ matched,
    result (_nii_dcm_pairs nii dcm) = Returned matched
    ∧ matched ++ invalid_pairs nii dcm ≡ₚ pairs nii dcm
    ∧ (pairs nii dcm).*1 = nii
    ∧ length matched + length (invalid_pairs nii dcm) = length nii
    ∧ ∀ p, ¬ (p ∈ matched ∧ p ∈ invalid_pairs nii dcm).
Proof.
  exists (valid_pairs nii dcm). rewrite _nii_dcm_pairs_result.
  split_and!; [done|apply pairs_partition|apply pairs_fst
              |apply pairs_partition_length|].
  intros [n x] [(_ & _ & Hx)%elem_of_valid_pairs (_ & -> & _)%elem_of_invalid_pairs].
  done.
Qed.

(** X2.  [_nii_dcm_pairs] prints one line for each NIfTI record and nothing
    else: first a [WARN] line for each unmatched record, in input order,
    numbered from 0, then an [INFO] line for each matched pair, in input
    order, numbered from 0, that names the two base names.  Both kinds of
    line show the number of unmatched records as the total. *)
Theorem X2_resolver_report nii dcm :
  let unmatched := invalid_pairs nii dcm in
  let matched := valid_pairs nii dcm in
  trace (_nii_dcm_pairs nii dcm)
  = ((λ ip : nat * (fileinfo * option fileinfo),
        Stdout ("[WARN] (" +:+ pretty ip.1 +:+ "/" +:+ pretty (length unmatched)
                  +:+ ") " +:+ base_filename ip.2.1 +:+ ": no dcm pair"))
       <$> enumerate unmatched)
    ++ ((λ ip : nat * (fileinfo * option fileinfo),
           Stdout ("[INFO] (" +:+ pretty ip.1 +:+ "/" +:+ pretty (length unmatched)
                     +:+ ") " +:+ base_filename ip.2.1 +:+ ": "
                     +:+ from_option base_filename "" ip.2.2))
          <$> enumerate matched)
  ∧ length (trace (_nii_dcm_pairs nii dcm)) = length nii.
Proof.
  intros unmatched matched.
  match goal with
  | |- ?t = ?lines ∧ _ => assert (t = lines) as Htrace; [|split; [exact Htrace|]]
  end.
  - unfold _nii_dcm_pairs. fold unmatched. fold matched.
    rewrite trace_bind.
    rewrite (for_each_prints (enumerate unmatched) _
               (λ ip, "[WARN] (" +:+ pretty ip.1 +:+ "/" +:+ pretty (length unmatched)
                        +:+ ") " +:+ base_filename ip.2.1 +:+ ": no dcm pair"))
      by (by intros [idx [n x]] _).
    unfold result at 1, trace at 1. simpl fst. simpl snd.
    f_equal. rewrite trace_bind.
    rewrite (for_each_prints (enumerate matched) _
               (λ ip, "[INFO] (" +:+ pretty ip.1 +:+ "/" +:+ pretty (length unmatched)
                        +:+ ") " +:+ base_filename ip.2.1 +:+ ": "
                        +:+ from_option base_filename "" ip.2.2)).
    + unfold result at 1, trace at 1. simpl fst. simpl snd.
      rewrite trace_ret. apply (right_id_L [] (++)).
    + intros [idx [n x]] Hin%elem_of_enumerate%list_elem_of_lookup_2.
      apply elem_of_valid_pairs in Hin as (_ & _ & Hx).
      by destruct x.
  - rewrite Htrace, length_app, !length_fmap. unfold enumerate.
    rewrite !length_imap. unfold unmatched, matched.
    rewrite (comm Nat.add). apply pairs_partition_length.
Qed.

Lemma dcm_fileinfo_map_dom dcm :
  dom (dcm_fileinfo_map dcm) =@{gset string} list_to_set (prompt <$> dcm).
Proof.
  induction dcm as [|d dcm IH] using rev_ind; [done|].
  rewrite dcm_fileinfo_map_snoc, dom_insert_L, IH, fmap_app, list_to_set_app_L.
  simpl. rewrite (right_id_L ∅ (∪)). apply (comm_L (∪)).
Qed.

Lemma dcm_fileinfo_map_size dcm : size (dcm_fileinfo_map dcm) ≤ length dcm.
Proof.
  induction dcm as [|d dcm IH] using rev_ind; [done|].
  rewrite dcm_fileinfo_map_snoc, length_app, map_size_insert. simpl.
  destruct (dcm_fileinfo_map dcm !! prompt d); simpl; lia.
Qed.

(** X3.  The dictionary keeps every entry under the prompt of its record,
    holds only records of the list it was built from, has exactly the
    prompts of that list as its keys, and so has at most as many entries as
    the list has records. *)
Theorem X3_dictionary_invariant dcm :
  (∀ key r, dcm_fileinfo_map dcm !! key = Some r → prompt r = key ∧ r ∈ dcm)
  ∧ dom (dcm_fileinfo_map dcm) =@{gset string} list_to_set (prompt <$> dcm)
  ∧ size (dcm_fileinfo_map dcm) ≤ length dcm.
Proof.
  split_and!; [|apply dcm_fileinfo_map_dom|apply dcm_fileinfo_map_size].
  intros key r Hr. by apply dcm_fileinfo_map_Some in Hr as [? ?].
Qed.

End ResolverReport.

(** ** Further properties of the DICOM record of a file *)

Section DcmFileinfo.
Import Str StrFacts.

Lemma rstrip_sep_trailing s : rstrip_sep (s +:+ "/") = rstrip_sep s.
Proof.
  induction s as [|c s IH]; [done|].
  rewrite append_cons. simpl. by rewrite IH.
Qed.

Lemma all_sep_trailing s : all_sep (s +:+ "/") = all_sep s.
Proof.
  induction s as [|c s IH]; [done|].
  rewrite append_cons. simpl. by rewrite IH.
Qed.

Lemma rstrip_sep_all_sep s : all_sep s = true → rstrip_sep s = "".
Proof.
  induction s as [|c s IH]; [done|]. simpl.
  intros [Hc Hs]%andb_true_iff. rewrite (IH Hs). by rewrite Hc.
Qed.

Lemma rstrip_sep_no_sep s : occurs sep s = false → rstrip_sep s = s.
Proof.
  induction s as [|c s IH]; [done|]. simpl.
  intros [Hc Hs]%orb_false_iff. rewrite (IH Hs), Hc. by rewrite andb_false_r.
Qed.

Lemma rstrip_sep_app p s :
  s ≠ "" → occurs sep s = false → rstrip_sep (p +:+ s) = p +:+ s.
Proof.
  intros Hne Hs. induction p as [|c p IH].
  - by apply rstrip_sep_no_sep.
  - rewrite append_cons. simpl. rewrite IH.
    rewrite bool_decide_eq_false_2; [done|]. destruct p, s; done.
Qed.

(** The directory part of [root/entry] for an entry without [/]. *)
Lemma dirname_join root f :
  occurs sep f = false →
  dirname (root +:+ "/" +:+ f)
  = if all_sep root then root +:+ "/" else rstrip_sep root.
Proof.
  intros Hf. unfold dirname.
  rewrite <- append_assoc, rsplit_sep_app, rsplit_sep_trailing by done. simpl.
  rewrite all_sep_trailing, rstrip_sep_trailing.
  rewrite bool_decide_eq_false_2 by (by destruct root).
  by destruct (all_sep root).
Qed.

Lemma basename_dirname_join root f :
  occurs sep f = false →
  basename (dirname (root +:+ "/" +:+ f)) = basename (rstrip_sep root).
Proof.
  intros Hf. rewrite dirname_join by done.
  destruct (all_sep root) eqn:Hall; [|done].
  rewrite rstrip_sep_all_sep by done.
  unfold basename. by rewrite rsplit_sep_trailing.
Qed.

Context (dcm_dcmread : string → outcome Dataset).

(** X4.  When the file cannot be read as a data set, [_get_dcm_fileinfo]
    raises what the reader raised and prints nothing.  When it can, the
    reporting name of the record of [root/entry], for an entry without [/],
    is the last component of the root (trailing [/] dropped), [/] and the
    entry; for a root [parent/dir] that is [dir/entry]. *)
Theorem X4_dcm_base_filename root first :
  occurs sep first = false →
  (∀ e, dcm_dcmread (root +:+ "/" +:+ first) = Raised e →
        _get_dcm_fileinfo dcm_dcmread (root +:+ "/" +:+ first) = ([], Raised e))
  ∧ (∀ the_dcm, dcm_dcmread (root +:+ "/" +:+ first) = Returned the_dcm →
       ∃ r, result (_get_dcm_fileinfo dcm_dcmread (root +:+ "/" +:+ first))
              = Returned r
            ∧ base_filename r = basename (rstrip_sep root) +:+ "/" +:+ first
            ∧ ∀ parent dir, root = parent +:+ "/" +:+ dir → dir ≠ "" →
                occurs sep dir = false →
                base_filename r = dir +:+ "/" +:+ first).
Proof.
  intros Hfirst. split.
  - intros e Hread. unfold _get_dcm_fileinfo. by rewrite Hread.
  - intros the_dcm Hread. rewrite _get_dcm_fileinfo_result, Hread.
    eexists. split; [done|]. simpl.
    rewrite basename_dirname_join, basename_join by done. split; [done|].
    intros parent dir -> Hne Hdir.
    rewrite <- (append_assoc parent "/" dir).
    rewrite (rstrip_sep_app (parent +:+ "/") dir) by done.
    by rewrite (append_assoc parent "/" dir), basename_join.
Qed.


End DcmFileinfo.

(** X6.  When [ProtocolName] is read and is not [None],
    [_get_dcm_fileinfo] does not read [SequenceName]: two data sets that
    differ only there give the same record and the same lines. *)
Theorem X6_sequence_name_unread (path : string) (the_dcm the_dcm' : Dataset)
    (v : string) :
  data_element_value the_dcm "ProtocolName" = Returned (Some v) →
  (∀ kw, kw ≠ "SequenceName" →
         data_element_value the_dcm' kw = data_element_value the_dcm kw) →
  (∀ group elem, item_value the_dcm' group elem = item_value the_dcm group elem) →
  _get_dcm_fileinfo (λ _, Returned the_dcm') path
  = _get_dcm_fileinfo (λ _, Returned the_dcm) path.
Proof.
  intros Hpn Hkw Htag. unfold _get_dcm_fileinfo.
  pose proof (Hkw "ProtocolName" ltac:(done)) as Hpn'.
  pose proof (Hkw "SeriesDescription" ltac:(done)) as Hsd.
  rewrite Hpn in Hpn'.
  unfold mbind, Run_bind, lift, try_except. simpl.
  rewrite Hpn, Hpn', Hsd, !Htag. simpl.
  reflexivity.
Qed.

(** ** Further properties of the DICOM inventory *)

Lemma for_each_ext {A S} (xs : list A) (body1 body2 : S → A → Run S) (s : S) :
  (∀ s x, x ∈ xs → body1 s x = body2 s x) →
  for_each xs body1 s = for_each xs body2 s.
Proof.
  revert s. induction xs as [|x xs IH]; intros s Hbody; [done|].
  rewrite !for_each_cons, Hbody by left.
  unfold mbind, Run_bind. destruct (body2 s x).2 as [s'|e]; [|done].
  rewrite IH; [done|]. intros s'' y Hy. apply Hbody. by right.
Qed.

Section WalkFacts.
Context (dcm_dcmread : string → outcome Dataset).

Lemma _get_dcm_fileinfos_body_representative dcm_fileinfos entry :
  result (_get_dcm_fileinfos_body dcm_dcmread dcm_fileinfos entry) =
  match representative entry with
  | None => Returned dcm_fileinfos
  | Some path =>
      match result (_get_dcm_fileinfo dcm_dcmread path) with
      | Returned r => Returned (dcm_fileinfos ++ [r])
      | Raised e => Raised e
      end
  end.
Proof.
  destruct entry as [[root the_dirs] the_filenames].
  rewrite _get_dcm_fileinfos_body_result. unfold representative.
  by destruct (head _).
Qed.

Lemma walk_loop_filenames walk dcm_fileinfos :
  result (for_each walk (_get_dcm_fileinfos_body dcm_dcmread) [])
    = Returned dcm_fileinfos →
  filename <$> dcm_fileinfos = omap representative walk.
Proof.
  revert dcm_fileinfos. induction walk as [|entry walk IH]; intros recs.
  - by intros [= <-].
  - rewrite walk_loop_cons, _get_dcm_fileinfos_body_representative. csimpl.
    destruct (representative entry) as [path|].
    + rewrite _get_dcm_fileinfo_result.
      destruct (dcm_dcmread path) as [the_dcm|e]; [|done].
      destruct (result (for_each walk _ _)) as [later|e]; [|done].
      intros [= <-]. csimpl. by rewrite (IH later).
    + destruct (result (for_each walk _ _)) as [later|e]; [|done].
      intros [= <-]. by apply IH.
Qed.

Lemma walk_loop_raised walk e :
  result (for_each walk (_get_dcm_fileinfos_body dcm_dcmread) []) = Raised e →
  ∃ entry path,
    entry ∈ walk ∧ representative entry = Some path ∧ dcm_dcmread path = Raised e.
Proof.
  induction walk as [|entry walk IH]; [done|].
  rewrite walk_loop_cons, _get_dcm_fileinfos_body_representative.
  destruct (representative entry) as [path|] eqn:Hrep.
  - rewrite _get_dcm_fileinfo_result.
    destruct (dcm_dcmread path) as [the_dcm|e'] eqn:Hread.
    + destruct (result (for_each walk _ _)) as [later|e']; [done|].
      intros [= ->]. destruct (IH eq_refl) as (entry' & path' & ? & ? & ?).
      exists entry', path'. split_and!; [by right|done|done].
    + intros [= ->]. exists entry, path. split_and!; [by left|done|done].
  - destruct (result (for_each walk _ _)) as [later|e']; [done|].
    intros [= ->]. destruct (IH eq_refl) as (entry' & path' & ? & ? & ?).
    exists entry', path'. split_and!; [by right|done|done].
Qed.

Lemma walk_loop_none walk :
  (∀ entry, entry ∈ walk → representative entry = None) →
  for_each walk (_get_dcm_fileinfos_body dcm_dcmread) [] = ([], Returned []).
Proof.
  induction walk as [|[[root the_dirs] the_filenames] walk IH]; intros Hnone; [done|].
  pose proof (Hnone (root, the_dirs, the_filenames) ltac:(by left)) as Hrep.
  unfold representative in Hrep. apply fmap_None, head_None in Hrep.
  assert (_get_dcm_fileinfos_body dcm_dcmread [] (root, the_dirs, the_filenames)
          = mret []) as Hbody.
  { unfold _get_dcm_fileinfos_body. by rewrite Hrep. }
  rewrite for_each_cons, Hbody.
  unfold mbind, Run_bind, mret, Run_ret. cbn [fst snd].
  rewrite IH; [done|].
  intros entry Hentry. apply Hnone. by right.
Qed.

End WalkFacts.

(** ** The paths that the inventories record *)

Section RecordedPaths.
Import Str.

(** The representative of a directory is its first entry that ends in
    [.dcm], under the root. *)
Lemma representative_first root the_dirs the_filenames path :
  representative (root, the_dirs, the_filenames) = Some path →
  ∃ pre first post,
    the_filenames = pre ++ first :: post
    ∧ (∀ f, f ∈ pre → endswith f ".dcm" = false)
    ∧ endswith first ".dcm" = true
    ∧ path = root +:+ "/" +:+ first.
Proof.
  unfold representative. intros (first & Hhead & ->)%fmap_Some.
  pose proof (head_Some_elem_of _ _ Hhead) as [Hfirst _]%list_elem_of_filter.
  apply head_filter_Some in Hhead as (pre & post & -> & Hpre).
  exists pre, first, post. split_and!; [done| |by apply Is_true_true|done].
  intros f Hf. rewrite Forall_forall in Hpre. specialize (Hpre f Hf).
  destruct (endswith f ".dcm"); [|done]. by destruct Hpre.
Qed.

Lemma representative_of_first root the_dirs pre first post :
  (∀ f, f ∈ pre → endswith f ".dcm" = false) →
  endswith first ".dcm" = true →
  representative (root, the_dirs, pre ++ first :: post)
  = Some (root +:+ "/" +:+ first).
Proof.
  intros Hpre Hfirst. unfold representative.
  rewrite head_filter_first; [done| |by apply Is_true_true].
  intros f Hf. rewrite (Hpre f Hf). by intros [].
Qed.

Lemma representative_none root the_dirs the_filenames :
  representative (root, the_dirs, the_filenames) = None ↔
  ∀ f, f ∈ the_filenames → endswith f ".dcm" = false.
Proof.
  unfold representative. rewrite fmap_None, head_None. split.
  - intros Hnil f Hf. destruct (endswith f ".dcm") eqn:E; [|done].
    assert (f ∈ filter (λ x, Is_true (endswith x ".dcm")) the_filenames) as Hin.
    { apply list_elem_of_filter. split; [by apply Is_true_true|done]. }
    rewrite Hnil in Hin. by apply elem_of_nil in Hin.
  - intros Hnone. apply filter_none. intros f Hf. rewrite (Hnone f Hf). by intros [].
Qed.

(** The walk loop returns when the representatives can be read. *)
Lemma walk_loop_returns dcm_dcmread walk :
  (∀ entry path, entry ∈ walk → representative entry = Some path →
                 ∃ the_dcm, dcm_dcmread path = Returned the_dcm) →
  ∃ dcm_fileinfos,
    result (for_each walk (_get_dcm_fileinfos_body dcm_dcmread) [])
      = Returned dcm_fileinfos.
Proof.
  induction walk as [|entry walk IH]; intros Hreadable; [by exists []|].
  destruct IH as [later Hlater].
  { intros entry' path Hin. apply Hreadable. by right. }
  rewrite walk_loop_cons, _get_dcm_fileinfos_body_representative, Hlater.
  destruct (representative entry) as [path|] eqn:Hrep; [|by eexists].
  destruct (Hreadable entry path) as [the_dcm Hread]; [by left|done|].
  rewrite _get_dcm_fileinfo_result, Hread. by eexists.
Qed.

(** C7.  In a walk in which the first [.dcm] entry of every directory can
    be read, whatever holds of the entries after it, the records of the
    DICOM inventory are those of the directories before a directory, then
    what that directory contributes, then those of the directories after
    it.  A directory contributes nothing when none of its entries ends in
    [.dcm], and exactly one record otherwise: the record of its first entry
    that ends in [.dcm], whatever entries follow that one. *)
Theorem C7_one_record_per_directory
    (os_walk : string → list (string * list string * list string))
    (dcm_dcmread : string → outcome Dataset)
    (inputdir : string)
    (before after : list (string * list string * list string))
    (root : string) (the_dirs the_filenames : list string) :
  os_walk inputdir = before ++ (root, the_dirs, the_filenames) :: after →
  (∀ root' the_dirs' pre first post,
     (root', the_dirs', pre ++ first :: post) ∈ os_walk inputdir →
     (∀ f, f ∈ pre → endswith f ".dcm" = false) →
     endswith first ".dcm" = true →
     ∃ the_dcm, dcm_dcmread (root' +:+ "/" +:+ first) = Returned the_dcm) →
  ∃ earlier contributed later,
    result (_get_dcm_fileinfos os_walk dcm_dcmread inputdir)
      = Returned (earlier ++ contributed ++ later)
    ∧ result (_get_dcm_fileinfos (λ _, before) dcm_dcmread inputdir)
      = Returned earlier
    ∧ result (_get_dcm_fileinfos (λ _, after) dcm_dcmread inputdir)
      = Returned later
    ∧ ((∀ f, f ∈ the_filenames → endswith f ".dcm" = false) →
       contributed = [])
    ∧ ((∃ f, f ∈ the_filenames ∧ endswith f ".dcm" = true) →
       length contributed = 1)
    ∧ (∀ pre first post,
         the_filenames = pre ++ first :: post →
         (∀ f, f ∈ pre → endswith f ".dcm" = false) →
         endswith first ".dcm" = true →
         ∃ r, result (_get_dcm_fileinfo dcm_dcmread (root +:+ "/" +:+ first))
                = Returned r
              ∧ filename r = root +:+ "/" +:+ first
              ∧ contributed = [r]).
Proof.
  intros Hwalk Hfirst.
  assert (∀ entry path, entry ∈ os_walk inputdir →
                        representative entry = Some path →
                        ∃ the_dcm, dcm_dcmread path = Returned the_dcm)
    as Hreadable.
  { intros [[root' ds] fs] path Hin Hrep.
    apply representative_first in Hrep as (pre & first & post & -> & ? & ? & ->).
    by apply (Hfirst root' ds pre first post). }
  rewrite !_get_dcm_fileinfos_result, Hwalk. rewrite Hwalk in Hreadable.
  destruct (walk_loop_returns dcm_dcmread before) as [earlier Hearlier].
  { intros entry path Hin. apply Hreadable. apply elem_of_app. by left. }
  destruct (walk_loop_returns dcm_dcmread after) as [later Hlater].
  { intros entry path Hin. apply Hreadable. apply elem_of_app. right. by right. }
  rewrite walk_loop_app, walk_loop_cons, Hearlier, Hlater.
  rewrite _get_dcm_fileinfos_body_representative.
  destruct (representative (root, the_dirs, the_filenames)) as [path|] eqn:Hrep.
  - destruct (Hreadable (root, the_dirs, the_filenames) path) as [the_dcm Hread];
      [apply elem_of_app; right; by left|done|].
    rewrite _get_dcm_fileinfo_result, Hread.
    eexists earlier, [_], later. split_and!; [done|done|done| |done|].
    + intros Hnone.
      apply (proj2 (representative_none root the_dirs the_filenames)) in Hnone.
      congruence.
    + intros pre first post -> Hpre Hends.
      rewrite representative_of_first in Hrep by done. injection Hrep as <-.
      rewrite _get_dcm_fileinfo_result, Hread. eexists. by split_and!.
  - exists earlier, [], later. split_and!; [done|done|done|done| |].
    + intros (f & Hf & Hends).
      rewrite representative_none in Hrep. rewrite (Hrep f Hf) in Hends. done.
    + intros pre first post -> Hpre Hends.
      rewrite representative_of_first in Hrep by done. done.
Qed.

Context (os_listdir : string → outcome (list string)).
Context (os_walk : string → list (string * list string * list string)).
Context (dcm_dcmread : string → outcome Dataset).
Context (run_nii2dcm : Path → Path → string → Path → outcome unit).

(** C9.  The NIfTI inventory records the directory entry itself as the
    filename of the record, never joined to the input directory: the
    filenames of the records are the entries that end in [.nii.gz], an
    entry (which has no [/]) is also the base name of its record, and the
    first arguments of the calls of the conversion routine are, in order,
    the bare filenames, equally the base names, of the matched records
    served (all of them when no call raises).  The filename of every
    record of the DICOM inventory is the root of a directory of the walk,
    [/], and the first entry of that directory that ends in [.dcm]; every
    directory with such an entry has its record, and the records are in
    the order of the walk. *)
Theorem C9_recorded_paths inputdir outputdir :
  (∀ filenames,
     os_listdir inputdir = Returned filenames →
     (∀ f, f ∈ filenames → occurs sep f = false) →
     ∃ nii_fileinfos,
       result (_get_nii_fileinfos os_listdir inputdir) = Returned nii_fileinfos
       ∧ filename <$> nii_fileinfos
         = filter (λ x, Is_true (endswith x ".nii.gz")) filenames
       ∧ (∀ n, n ∈ nii_fileinfos →
            filename n ∈ filenames ∧ base_filename n = filename n)
       ∧ (∀ call,
            call ∈ conversions
                     (trace (main os_listdir os_walk dcm_dcmread run_nii2dcm
                               inputdir outputdir)) →
            ∃ n, n ∈ nii_fileinfos
                 ∧ call.1.1.1 = mkPath (filename n)
                 ∧ call.1.1.1 = mkPath (base_filename n)
                 ∧ filename n ∈ filenames)
       ∧ (∀ dcm_fileinfos,
            result (_get_dcm_fileinfos os_walk dcm_dcmread inputdir)
              = Returned dcm_fileinfos →
            ∃ processed,
              processed `prefix_of` valid_pairs nii_fileinfos dcm_fileinfos
              ∧ (λ call : Path * Path * string * Path, call.1.1.1)
                  <$> conversions
                        (trace (main os_listdir os_walk dcm_dcmread run_nii2dcm
                                  inputdir outputdir))
                = (λ p : fileinfo * option fileinfo, mkPath (filename p.1))
                    <$> processed
              ∧ (λ p : fileinfo * option fileinfo, mkPath (filename p.1))
                  <$> processed
                = (λ p : fileinfo * option fileinfo, mkPath (base_filename p.1))
                    <$> processed
              ∧ ((∀ a b c d, run_nii2dcm a b c d = Returned tt) →
                 processed = valid_pairs nii_fileinfos dcm_fileinfos)))
  ∧ (∀ dcm_fileinfos,
       result (_get_dcm_fileinfos os_walk dcm_dcmread inputdir)
         = Returned dcm_fileinfos →
       (∀ d, d ∈ dcm_fileinfos →
          ∃ root the_dirs the_filenames first,
            (root, the_dirs, the_filenames) ∈ os_walk inputdir
            ∧ head (filter (λ x, Is_true (endswith x ".dcm")) the_filenames)
              = Some first
            ∧ filename d = root +:+ "/" +:+ first)
       ∧ (∀ root the_dirs pre first post,
            (root, the_dirs, pre ++ first :: post) ∈ os_walk inputdir →
            (∀ f, f ∈ pre → endswith f ".dcm" = false) →
            endswith first ".dcm" = true →
            ∃ d, d ∈ dcm_fileinfos ∧ filename d = root +:+ "/" +:+ first)
       ∧ filename <$> dcm_fileinfos = omap representative (os_walk inputdir)).
Proof.
  split.
  - intros filenames Hlist Hbare.
    pose proof (_get_nii_fileinfos_result os_listdir inputdir) as Hnii.
    rewrite Hlist in Hnii. eexists. split; [exact Hnii|].
    set (nii_fileinfos := _get_nii_fileinfo <$> _) in *.
    assert (∀ n, n ∈ nii_fileinfos →
                 filename n ∈ filenames ∧ base_filename n = filename n) as Hrec.
    { intros n (f & -> & [_ Hin]%list_elem_of_filter)%list_elem_of_fmap.
      split; [done|]. simpl. by apply StrFacts.basename_no_sep, Hbare. }
    split_and!; [|done| |].
    + unfold nii_fileinfos. rewrite <- list_fmap_compose. apply list_fmap_id.
    + intros call. rewrite main_conversions, Hnii.
      destruct (result (_get_dcm_fileinfos _ _ _)) as [dcm_fileinfos|e];
        [|by intros ?%elem_of_nil].
      destruct (main_loop run_nii2dcm outputdir
                  (valid_pairs nii_fileinfos dcm_fileinfos))
        as (processed & [rest Hprefix] & -> & _); [apply valid_pairs_Forall|].
      intros ([n x] & -> & Hin)%list_elem_of_fmap.
      assert ((n, x) ∈ processed ++ rest) as Hvalid by (apply elem_of_app; by left).
      rewrite <- Hprefix in Hvalid.
      apply elem_of_valid_pairs in Hvalid as (Hn & _ & _).
      destruct (Hrec n Hn) as [? Hbase].
      exists n. simpl. by rewrite Hbase.
    + intros dcm_fileinfos Hdcm. rewrite main_conversions, Hnii, Hdcm.
      destruct (main_loop run_nii2dcm outputdir
                  (valid_pairs nii_fileinfos dcm_fileinfos))
        as (processed & Hprefix & -> & Hall); [apply valid_pairs_Forall|].
      exists processed. split_and!; [done| | |].
      * by rewrite <- list_fmap_compose.
      * apply list_fmap_ext. intros i [n x] Hi. simpl.
        apply list_elem_of_lookup_2 in Hi.
        assert ((n, x) ∈ valid_pairs nii_fileinfos dcm_fileinfos) as Hvalid.
        { destruct Hprefix as [rest ->]. apply elem_of_app. by left. }
        apply elem_of_valid_pairs in Hvalid as (Hn & _ & _).
        destruct (Hrec n Hn) as [_ Hbase]. by rewrite Hbase.
      * intros Hnever. by destruct (Hall Hnever).
  - intros dcm_fileinfos Hdcm. rewrite _get_dcm_fileinfos_result in Hdcm.
    pose proof (walk_loop_filenames _ _ _ Hdcm) as Hnames.
    split_and!; [|  |done].
    + intros d Hd. by apply (walk_loop_elem dcm_dcmread _ _ d Hdcm).
    + intros root the_dirs pre first post Hin Hpre Hends.
      assert (root +:+ "/" +:+ first ∈ filename <$> dcm_fileinfos) as Hpath.
      { rewrite Hnames. apply list_elem_of_omap.
        exists (root, the_dirs, pre ++ first :: post). split; [done|].
        by apply representative_of_first. }
      apply list_elem_of_fmap in Hpath as (d & Heq & Hd). by exists d.
Qed.

End RecordedPaths.

Lemma C7_one_record_per_directory_witness :
  ∃ r, result (_get_dcm_fileinfos Sample.os_walk Sample.dcm_dcmread_first_only "/in")
         = Returned [r]
       ∧ filename r = "/in/seriesX/scan1.dcm".
Proof.
  destruct (C7_one_record_per_directory Sample.os_walk
              Sample.dcm_dcmread_first_only "/in"
              [("/in", ["seriesX"; "empty"],
                ["ep_b1000_ADC_20200101__7_ss_zmap.nii.gz"; "brainB_ss_zmap.nii.gz";
                 "notes.txt"])]
              [("/in/empty", [], ["readme.txt"])]
              "/in/seriesX" [] ["readme.txt"; "scan1.dcm"; "scan2.dcm"])
    as (earlier & contributed & later & Hall & Hearlier & Hlater & _ & _ & Hfirst).
  - reflexivity.
  - intros root ds pre first post Hin Hpre Hends.
    pose proof (representative_of_first root ds pre first post Hpre Hends) as Hrep.
    apply list_elem_of_In in Hin. simpl in Hin.
    destruct Hin as [Heq|[Heq|[Heq|[]]]];
      injection Heq as <- <- Hfiles;
      rewrite <- Hfiles in Hrep; vm_compute in Hrep;
      first [discriminate Hrep | injection Hrep as <-; eexists; reflexivity].
  - destruct (Hfirst ["readme.txt"] "scan1.dcm" ["scan2.dcm"])
      as (r & _ & Hname & ->).
    + reflexivity.
    + intros f ->%list_elem_of_singleton. reflexivity.
    + reflexivity.
    + exists r. split; [|exact Hname].
      vm_compute in Hearlier. injection Hearlier as <-.
      vm_compute in Hlater. injection Hlater as <-.
      exact Hall.
Defined.

Lemma C9_recorded_paths_witness :
  (∃ nii_fileinfos,
     result (_get_nii_fileinfos Sample.os_listdir "/in") = Returned nii_fileinfos
     ∧ filename <$> nii_fileinfos
       = ["ep_b1000_ADC_20200101__7_ss_zmap.nii.gz"; "brainB_ss_zmap.nii.gz"]
     ∧ (λ call : Path * Path * string * Path, call.1.1.1)
         <$> conversions
               (trace (main Sample.os_listdir Sample.os_walk Sample.dcm_dcmread
                         Sample.run_nii2dcm "/in" "/out"))
       = [mkPath "ep_b1000_ADC_20200101__7_ss_zmap.nii.gz"])
  ∧ (∃ d, d ∈ [Sample.dcm_X] ∧ filename d = "/in/seriesX/scan1.dcm")
  ∧ filename <$> [Sample.dcm_X] = omap representative (Sample.os_walk "/in").
Proof.
  destruct (C9_recorded_paths Sample.os_listdir Sample.os_walk Sample.dcm_dcmread
              Sample.run_nii2dcm "/in" "/out") as [Hnii Hdcm].
  split.
  - destruct (Hnii ["ep_b1000_ADC_20200101__7_ss_zmap.nii.gz";
                    "brainB_ss_zmap.nii.gz"; "notes.txt"; "seriesX"; "empty"])
      as (nii_fileinfos & Hresult & Hnames & _ & _ & Hcalls).
    + reflexivity.
    + intros f Hf. apply list_elem_of_In in Hf. simpl in Hf.
      destruct Hf as [<-|[<-|[<-|[<-|[<-|[]]]]]]; reflexivity.
    + exists nii_fileinfos. split_and!; [exact Hresult| |].
      * rewrite Hnames. vm_compute. reflexivity.
      * destruct (Hcalls [Sample.dcm_X]) as (processed & _ & -> & _ & Hall);
          [vm_compute; reflexivity|].
        rewrite Hall by reflexivity.
        rewrite _get_nii_fileinfos_result in Hresult. simpl in Hresult.
        injection Hresult as <-. vm_compute. reflexivity.
  - destruct (Hdcm [Sample.dcm_X]) as (_ & Hevery & Horder);
      [vm_compute; reflexivity|].
    split; [|exact Horder].
    apply (Hevery "/in/seriesX" [] ["readme.txt"] "scan1.dcm" ["scan2.dcm"]).
    + right. by left.
    + intros f ->%list_elem_of_singleton. reflexivity.
    + reflexivity.
Defined.

(** X7.  A file that cannot be read ends the DICOM inventory: when the
    representative of a directory of the walk cannot be read and those of
    the directories before it can, [_get_dcm_fileinfos] raises what the
    reader raised, the records of the earlier directories are not returned,
    and [main] raises the same without any call of the conversion
    routine. *)
Theorem X7_unreadable_file_aborts
    (os_listdir : string → outcome (list string))
    (os_walk : string → list (string * list string * list string))
    (dcm_dcmread : string → outcome Dataset)
    (run_nii2dcm : Path → Path → string → Path → outcome unit)
    (inputdir outputdir : string)
    (before after : list (string * list string * list string))
    (entry : string * list string * list string)
    (path : string) (e : exn) (earlier : list fileinfo) :
  os_walk inputdir = before ++ entry :: after →
  result (_get_dcm_fileinfos (λ _, before) dcm_dcmread inputdir) = Returned earlier →
  representative entry = Some path →
  dcm_dcmread path = Raised e →
  result (_get_dcm_fileinfos os_walk dcm_dcmread inputdir) = Raised e
  ∧ conversions
      (trace (main os_listdir os_walk dcm_dcmread run_nii2dcm inputdir outputdir))
    = []
  ∧ (∀ filenames, os_listdir inputdir = Returned filenames →
       result (main os_listdir os_walk dcm_dcmread run_nii2dcm inputdir outputdir)
       = Raised e).
Proof.
  intros Hwalk Hearlier Hrep Hread.
  rewrite _get_dcm_fileinfos_result in Hearlier.
  assert (result (_get_dcm_fileinfos os_walk dcm_dcmread inputdir) = Raised e)
    as Hdcm.
  { rewrite _get_dcm_fileinfos_result, Hwalk, walk_loop_app, Hearlier.
    rewrite walk_loop_cons, _get_dcm_fileinfos_body_representative, Hrep.
    by rewrite _get_dcm_fileinfo_result, Hread. }
  split_and!; [done| |].
  - rewrite main_conversions, Hdcm.
    by destruct (result (_get_nii_fileinfos os_listdir inputdir)).
  - intros filenames Hlist.
    by rewrite main_result, _get_nii_fileinfos_result, Hlist, Hdcm.
Qed.

(** X8.  [_get_dcm_fileinfos] reads one file for each directory, the
    representative, and no other: two readers that agree on the
    representatives of the walk give the same inventory, lines and result,
    whatever they do on the other files. *)
Theorem X8_only_representatives_read
    (os_walk : string → list (string * list string * list string))
    (dcm_dcmread dcm_dcmread' : string → outcome Dataset) (inputdir : string) :
  (∀ entry path, entry ∈ os_walk inputdir → representative entry = Some path →
                 dcm_dcmread' path = dcm_dcmread path) →
  _get_dcm_fileinfos os_walk dcm_dcmread' inputdir
  = _get_dcm_fileinfos os_walk dcm_dcmread inputdir.
Proof.
  intros Hagree. unfold _get_dcm_fileinfos.
  rewrite (for_each_ext _ (_get_dcm_fileinfos_body dcm_dcmread')
             (_get_dcm_fileinfos_body dcm_dcmread)); [done|].
  intros dcm_fileinfos [[root the_dirs] the_filenames] Hin.
  specialize (Hagree _ (root +:+ "/" +:+
    default "" (head (filter (λ x, Is_true (Str.endswith x ".dcm")) the_filenames)))
    Hin).
  unfold representative in Hagree. unfold _get_dcm_fileinfos_body.
  destruct (filter _ the_filenames) as [|first rest]; [done|].
  simpl in Hagree. unfold _get_dcm_fileinfo. by rewrite Hagree.
Qed.

(** X9.  The records of the DICOM inventory are, in the order of the walk,
    those of the directories that have a representative, one each, so
    there are at most as many as directories; the last line printed gives
    their number. *)
Theorem X9_inventory_in_walk_order
    (os_walk : string → list (string * list string * list string))
    (dcm_dcmread : string → outcome Dataset) (inputdir : string)
    (dcm_fileinfos : list fileinfo) :
  result (_get_dcm_fileinfos os_walk dcm_dcmread inputdir) = Returned dcm_fileinfos →
  filename <$> dcm_fileinfos = omap representative (os_walk inputdir)
  ∧ length dcm_fileinfos ≤ length (os_walk inputdir)
  ∧ last (trace (_get_dcm_fileinfos os_walk dcm_dcmread inputdir))
    = Some (Stdout ("[INFO] _get_dcm_fileinfos: to return: "
                      +:+ pretty (length dcm_fileinfos))).
Proof.
  intros Hresult. rewrite _get_dcm_fileinfos_result in Hresult.
  pose proof (walk_loop_filenames _ _ _ Hresult) as Hnames.
  split_and!; [done| |].
  - rewrite <- (length_fmap filename), Hnames.
    clear. induction (os_walk inputdir) as [|entry walk IH]; [done|].
    csimpl. destruct (representative entry); simpl; lia.
  - unfold _get_dcm_fileinfos. rewrite trace_bind, Hresult.
    by rewrite last_app.
Qed.

(** ** Further properties of the conversion driver *)

Lemma trace_pair {A} (t : list event) (o : outcome A) : trace (t, o) = t.
Proof. done. Qed.

Lemma result_pair {A} (t : list event) (o : outcome A) : result (t, o) = o.
Proof. done. Qed.

Lemma valid_pairs_nil nii_fileinfos : valid_pairs nii_fileinfos [] = [].
Proof.
  unfold valid_pairs, pairs. apply filter_none.
  intros [n x] (each & [= -> ->] & _)%list_elem_of_fmap. simpl.
  unfold dcm_fileinfo_map. simpl. rewrite lookup_empty. auto.
Qed.

(** Bare names that end in [.nii.gz] have different output directories. *)
Lemma _get_outdir_inj outputdir f1 f2 :
  Str.occurs Str.sep f1 = false → Str.occurs Str.sep f2 = false →
  Str.endswith f1 ".nii.gz" = true → Str.endswith f2 ".nii.gz" = true →
  _get_outdir outputdir f1 = _get_outdir outputdir f2 → f1 = f2.
Proof.
  intros Hs1 Hs2 He1 He2.
  destruct (_get_outdir_stem outputdir f1 He1) as (stem1 & Hb1 & ->).
  destruct (_get_outdir_stem outputdir f2 He2) as (stem2 & Hb2 & ->).
  intros Heq. apply (inj (String.append outputdir)) in Heq.
  apply (inj (String.append "/")) in Heq. subst stem2.
  rewrite StrFacts.basename_no_sep in Hb1, Hb2 by done. congruence.
Qed.

Section Driver.
Context (os_listdir : string → outcome (list string)).
Context (os_walk : string → list (string * list string * list string)).
Context (dcm_dcmread : string → outcome Dataset).
Context (run_nii2dcm : Path → Path → string → Path → outcome unit).

(** The loop of [main] raises what a call of the routine raised, and that
    call is its last. *)
Lemma main_loop_raised outputdir ps e :
  Forall (λ p : fileinfo * option fileinfo, p.2 ≠ None) ps →
  result (for_each ps (main_body run_nii2dcm outputdir) tt) = Raised e →
  ∃ nii out_dir ref,
    last (conversions (trace (for_each ps (main_body run_nii2dcm outputdir) tt)))
      = Some (nii, out_dir, "MR", ref)
    ∧ run_nii2dcm nii out_dir "MR" ref = Raised e.
Proof.
  induction 1 as [|[n [d|]] ps Hp Hps IH]; [done| |done].
  rewrite for_each_cons, trace_bind, result_bind, main_body_Some.
  rewrite !result_pair, !trace_pair.
  destruct (run_nii2dcm _ _ _ _) as [[]|e'] eqn:Hrun.
  - intros Hraised. destruct (IH Hraised) as (nii & out_dir & ref & Hlast & ?).
    exists nii, out_dir, ref. split; [|done].
    rewrite conversions_app, last_app. by rewrite Hlast.
  - intros [= ->]. by eexists _, _, _.
Qed.

(** The loop of [main] prints nothing. *)
Lemma main_loop_only_calls outputdir ps :
  Forall (λ p : fileinfo * option fileinfo, p.2 ≠ None) ps →
  length (conversions (trace (for_each ps (main_body run_nii2dcm outputdir) tt)))
  = length (trace (for_each ps (main_body run_nii2dcm outputdir) tt)).
Proof.
  induction 1 as [|[n [d|]] ps Hp Hps IH]; [done| |done].
  rewrite for_each_cons, trace_bind, main_body_Some.
  rewrite !result_pair, !trace_pair.
  destruct (run_nii2dcm _ _ _ _) as [[]|e']; [|done].
  rewrite conversions_app, !length_app. by rewrite IH.
Qed.

(** X10.  [main] raises only what its environment raised: the listing of
    the input directory, the reading of the representative of a directory
    of the walk, or a call of the conversion routine, which is then the
    last call made.  The program raises nothing of its own; in particular
    no matched pair lacks its DICOM record. *)
Theorem X10_raises_only_what_the_environment_raised inputdir outputdir e :
  result (main os_listdir os_walk dcm_dcmread run_nii2dcm inputdir outputdir)
    = Raised e →
  os_listdir inputdir = Raised e
  ∨ (∃ entry path,
       entry ∈ os_walk inputdir ∧ representative entry = Some path
       ∧ dcm_dcmread path = Raised e)
  ∨ (∃ nii out_dir ref,
       last (conversions
               (trace (main os_listdir os_walk dcm_dcmread run_nii2dcm
                         inputdir outputdir)))
         = Some (nii, out_dir, "MR", ref)
       ∧ run_nii2dcm nii out_dir "MR" ref = Raised e).
Proof.
  rewrite main_result, main_conversions, _get_nii_fileinfos_result.
  destruct (os_listdir inputdir) as [filenames|e']; [|intros [= ->]; by left].
  rewrite _get_dcm_fileinfos_result.
  destruct (result (for_each (os_walk inputdir) _ _)) as [dcm_fileinfos|e'] eqn:Hdcm.
  - intros Hloop. right. right.
    apply main_loop_raised; [apply valid_pairs_Forall|done].
  - intros [= ->]. right. left. by apply (walk_loop_raised dcm_dcmread).
Qed.

(** X11.  When no directory of the walk has an entry that ends in [.dcm],
    [main] returns without reading any file as a data set and without
    calling the conversion routine, whatever NIfTI files there are. *)
Theorem X11_no_dicom_no_conversion inputdir outputdir filenames :
  os_listdir inputdir = Returned filenames →
  (∀ entry, entry ∈ os_walk inputdir → representative entry = None) →
  result (main os_listdir os_walk dcm_dcmread run_nii2dcm inputdir outputdir)
    = Returned tt
  ∧ conversions
      (trace (main os_listdir os_walk dcm_dcmread run_nii2dcm inputdir outputdir))
    = []
  ∧ _get_dcm_fileinfos os_walk dcm_dcmread inputdir
    = ([Stdout "[INFO] _get_dcm_fileinfos: to return: 0"], Returned []).
Proof.
  intros Hlist Hnone.
  assert (_get_dcm_fileinfos os_walk dcm_dcmread inputdir
          = ([Stdout "[INFO] _get_dcm_fileinfos: to return: 0"], Returned []))
    as Hdcm.
  { unfold _get_dcm_fileinfos. by rewrite walk_loop_none. }
  rewrite main_result, main_conversions, _get_nii_fileinfos_result, Hlist, Hdcm.
  rewrite !result_pair. cbv beta iota. by rewrite valid_pairs_nil.
Qed.


End Driver.

(** ** Further properties of the keys and of the output directory *)

Section Keys.
Import Str StrFacts.

Lemma count_char_app c s t :
  count_char c (s +:+ t) = count_char c s + count_char c t.
Proof.
  induction s as [|a s IH]; [done|].
  rewrite append_cons. simpl. rewrite IH. lia.
Qed.

Lemma count_char_re_sub_char s :
  count_char "_" s ≤ count_char "_" (re_sub_char " " "_" s).
Proof.
  induction s as [|a s IH]; [done|]. simpl re_sub_char.
  rewrite count_char_app.
  destruct (decide (a = " "%char)) as [->|Hne]; simpl;
    [|destruct (decide (a = "_"%char))]; lia.
Qed.

Lemma dcm_prompt_underscores protocol_name description the_date the_time series_no :
  4 ≤ count_char "_"
        (dcm_prompt protocol_name description the_date the_time series_no).
Proof.
  unfold dcm_prompt. etrans; [|apply count_char_re_sub_char].
  rewrite !count_char_app. simpl. lia.
Qed.

Lemma dcm_prompt_no_space protocol_name description the_date the_time series_no :
  occurs " " (dcm_prompt protocol_name description the_date the_time series_no)
  = false.
Proof. unfold dcm_prompt. by apply re_sub_char_occurs. Qed.

Lemma walk_loop_prompts dcm_dcmread walk dcm_fileinfos :
  result (for_each walk (_get_dcm_fileinfos_body dcm_dcmread) [])
    = Returned dcm_fileinfos →
  ∀ d, d ∈ dcm_fileinfos →
       4 ≤ count_char "_" (prompt d) ∧ occurs " " (prompt d) = false.
Proof.
  revert dcm_fileinfos. induction walk as [|entry walk IH]; intros recs.
  - intros [= <-] d ?%elem_of_nil. done.
  - rewrite walk_loop_cons, _get_dcm_fileinfos_body_representative.
    destruct (representative entry) as [path|].
    + rewrite _get_dcm_fileinfo_result.
      destruct (dcm_dcmread path) as [the_dcm|e]; [|done].
      destruct (result (for_each walk _ _)) as [later|e]; [|done].
      intros [= <-] d [->|Hin]%elem_of_cons; [|by apply (IH later)].
      split; [apply dcm_prompt_underscores|apply dcm_prompt_no_space].
    + destruct (result (for_each walk _ _)) as [later|e]; [|done].
      intros [= <-]. by apply IH.
Qed.

(** X13.  The output directory of a NIfTI file depends on its base name
    only; a base name that does not end in [.nii.gz] (nor in [.nii.gz] and a
    line feed) is used as it is; and two bare names that end in [.nii.gz]
    have the same output directory only when they are the same name. *)
Theorem X13_output_directory outputdir :
  (∀ d f, occurs sep f = false →
          _get_outdir outputdir (d +:+ "/" +:+ f) = _get_outdir outputdir f)
  ∧ (∀ f, endswith (basename f) ".nii.gz" = false →
          endswith (basename f) (".nii.gz" +:+ LF) = false →
          _get_outdir outputdir f = outputdir +:+ "/" +:+ basename f)
  ∧ (∀ f1 f2, occurs sep f1 = false → occurs sep f2 = false →
              endswith f1 ".nii.gz" = true → endswith f2 ".nii.gz" = true →
              _get_outdir outputdir f1 = _get_outdir outputdir f2 → f1 = f2).
Proof.
  split_and!.
  - intros d f Hf. unfold _get_outdir.
    by rewrite basename_join, basename_no_sep.
  - intros f H1 H2. unfold _get_outdir. by rewrite re_sub_at_end_id.
  - apply _get_outdir_inj.
Qed.

(** X14.  Both patterns are anchored with [$], which also matches before a
    line feed that ends the string: for every stem, the prompt of
    [stem_ss_zmap.nii.gz] followed by a line feed is the stem followed by
    the line feed, and the output directory of [stem.nii.gz] followed by a
    line feed is that of the stem followed by the line feed.  Such a name
    does not end in [.nii.gz], so the NIfTI inventory does not admit it. *)
Theorem X14_pattern_before_line_feed stem outputdir :
  prompt (_get_nii_fileinfo (stem +:+ "_ss_zmap.nii.gz" +:+ LF)) = stem +:+ LF
  ∧ _get_outdir outputdir (stem +:+ ".nii.gz" +:+ LF)
    = outputdir +:+ "/" +:+ basename stem +:+ LF
  ∧ endswith (stem +:+ "_ss_zmap.nii.gz" +:+ LF) ".nii.gz" = false
  ∧ endswith (stem +:+ ".nii.gz" +:+ LF) ".nii.gz" = false.
Proof.
  assert (∀ s, endswith (s +:+ LF) ".nii.gz" = false) as Hnot.
  { intros s. destruct (endswith (s +:+ LF) ".nii.gz") eqn:E; [|done].
    apply (endswith_not_LF _ _ s) in E; [|done|done].
    by rewrite endswith_unfold, bool_decide_eq_true_2 in E. }
  split_and!.
  - simpl. by rewrite re_sub_at_end_suffix_LF.
  - unfold _get_outdir.
    rewrite (basename_app stem (".nii.gz" +:+ LF)) by done.
    by rewrite re_sub_at_end_suffix_LF.
  - rewrite <- append_assoc. apply Hnot.
  - rewrite <- append_assoc. apply Hnot.
Qed.

(** X15.  Every prompt of the DICOM inventory has at least four [_] and no
    space, so a NIfTI record whose prompt has fewer than four [_], or has a
    space, is never matched with a record of the inventory. *)
Theorem X15_short_prompt_never_matches
    (os_walk : string → list (string * list string * list string))
    (dcm_dcmread : string → outcome Dataset) (inputdir : string)
    (dcm_fileinfos : list fileinfo) :
  result (_get_dcm_fileinfos os_walk dcm_dcmread inputdir) = Returned dcm_fileinfos →
  (∀ d, d ∈ dcm_fileinfos →
        4 ≤ count_char "_" (prompt d) ∧ occurs " " (prompt d) = false)
  ∧ (∀ nii_fileinfos n,
       n ∈ nii_fileinfos →
       count_char "_" (prompt n) < 4 ∨ occurs " " (prompt n) = true →
       (n, None) ∈ invalid_pairs nii_fileinfos dcm_fileinfos
       ∧ ∀ x, (n, x) ∉ valid_pairs nii_fileinfos dcm_fileinfos).
Proof.
  intros Hresult. rewrite _get_dcm_fileinfos_result in Hresult.
  pose proof (walk_loop_prompts _ _ _ Hresult) as Hprompts.
  split; [done|]. intros nii_fileinfos n Hn Hshort.
  assert (dcm_fileinfo_map dcm_fileinfos !! prompt n = None) as Hnone.
  { apply dcm_fileinfo_map_None. intros d Hd Heq.
    destruct (Hprompts d Hd) as [Hcount Hspace]. rewrite Heq in Hcount, Hspace.
    destruct Hshort as [?|?]; [lia|congruence]. }
  split.
  - by apply elem_of_invalid_pairs.
  - intros x (_ & -> & Hx)%elem_of_valid_pairs. done.
Qed.

End Keys.

(** ** The order of reporting and conversion *)

Section Report.
Context (os_listdir : string → outcome (list string)).
Context (os_walk : string → list (string * list string * list string)).
Context (dcm_dcmread : string → outcome Dataset).
Context (run_nii2dcm : Path → Path → string → Path → outcome unit).

(** X16.  [main] reports first and converts afterwards: its events are a
    run of printed lines followed by a run of calls of the conversion
    routine, so both inventories and the pairing are complete before the
    first call and nothing is printed after it.  When both inventories
    return, the last line printed gives the number of NIfTI records and the
    number of matched pairs, which is not larger. *)
Theorem X16_report_before_calls inputdir outputdir :
  ∃ report calls,
    trace (main os_listdir os_walk dcm_dcmread run_nii2dcm inputdir outputdir)
      = report ++ calls
    ∧ conversions report = []
    ∧ length (conversions calls) = length calls
    ∧ ∀ nii_fileinfos dcm_fileinfos,
        result (_get_nii_fileinfos os_listdir inputdir) = Returned nii_fileinfos →
        result (_get_dcm_fileinfos os_walk dcm_dcmread inputdir)
          = Returned dcm_fileinfos →
        last report
          = Some (Stdout ("adc-to-zmap-nii-to-dcm: to dcm: nii_fileinfos: "
                            +:+ pretty (length nii_fileinfos) +:+ " nii_dcm_pairs: "
                            +:+ pretty (length (valid_pairs nii_fileinfos dcm_fileinfos))))
        ∧ length (valid_pairs nii_fileinfos dcm_fileinfos) ≤ length nii_fileinfos.
Proof.
  pose proof (_get_nii_fileinfos_quiet os_listdir inputdir) as Hqnii.
  pose proof (_get_dcm_fileinfos_quiet os_walk dcm_dcmread inputdir) as Hqdcm.
  unfold quiet in Hqnii, Hqdcm.
  unfold main. rewrite trace_bind.
  destruct (result (_get_nii_fileinfos os_listdir inputdir))
    as [nii_fileinfos|e] eqn:Hnii.
  2: { exists (trace (_get_nii_fileinfos os_listdir inputdir)), [].
       split_and!; [by rewrite (right_id_L [] (++))|done|done|by intros ? ? [=]]. }
  rewrite trace_bind.
  destruct (result (_get_dcm_fileinfos os_walk dcm_dcmread inputdir))
    as [dcm_fileinfos|e] eqn:Hdcm.
  2: { exists (trace (_get_nii_fileinfos os_listdir inputdir)
               ++ trace (_get_dcm_fileinfos os_walk dcm_dcmread inputdir)), [].
       split_and!; [by rewrite (right_id_L [] (++))| |done|by intros ? ? _ [=]].
       by rewrite conversions_app, Hqnii, Hqdcm. }
  rewrite trace_bind, _nii_dcm_pairs_result, trace_bind, result_print.
  pose proof (_nii_dcm_pairs_quiet nii_fileinfos dcm_fileinfos) as Hqpairs.
  unfold quiet in Hqpairs.
  eexists ((trace (_get_nii_fileinfos os_listdir inputdir)
            ++ trace (_get_dcm_fileinfos os_walk dcm_dcmread inputdir)
            ++ trace (_nii_dcm_pairs nii_fileinfos dcm_fileinfos))
           ++ [Stdout _]), _.
  split_and!.
  - rewrite <- !(assoc_L (++)). reflexivity.
  - by rewrite !conversions_app, Hqnii, Hqdcm, Hqpairs.
  - apply main_loop_only_calls, valid_pairs_Forall.
  - intros ? ? [= <-] [= <-]. split; [apply last_snoc|].
    pose proof (pairs_partition_length nii_fileinfos dcm_fileinfos). lia.
Qed.

End Report.

(** ** The further properties on the sample input directory *)

Lemma X4_dcm_base_filename_witness :
  ∃ r, result (_get_dcm_fileinfo Sample.dcm_dcmread "/in/seriesX/scan1.dcm")
         = Returned r
       ∧ base_filename r = "seriesX/scan1.dcm".
Proof.
  destruct (X4_dcm_base_filename Sample.dcm_dcmread "/in/seriesX" "scan1.dcm" eq_refl)
    as [_ Hread].
  destruct (Hread Sample.the_dcm eq_refl) as (r & Hr & _ & Hdir).
  exists r. split; [exact Hr|].
  apply (Hdir "/in" "seriesX"); [reflexivity|discriminate|reflexivity].
Defined.


Lemma X6_sequence_name_unread_witness :
  _get_dcm_fileinfo (λ _, Returned Sample.full_dcm_no_sequence) "seriesX/scan1.dcm"
  = _get_dcm_fileinfo (λ _, Returned Sample.full_dcm) "seriesX/scan1.dcm".
Proof.
  apply (X6_sequence_name_unread "seriesX/scan1.dcm" Sample.full_dcm
           Sample.full_dcm_no_sequence "ProtocolName").
  - reflexivity.
  - intros kw Hkw. simpl. by rewrite bool_decide_eq_false_2.
  - reflexivity.
Defined.

Lemma X7_unreadable_file_aborts_witness :
  result (_get_dcm_fileinfos Sample.os_walk Sample.dcm_dcmread_invalid "/in")
    = Raised (Exception "InvalidDicomError")
  ∧ result (main Sample.os_listdir Sample.os_walk Sample.dcm_dcmread_invalid
              Sample.run_nii2dcm "/in" "/out")
    = Raised (Exception "InvalidDicomError").
Proof.
  destruct (X7_unreadable_file_aborts Sample.os_listdir Sample.os_walk
              Sample.dcm_dcmread_invalid Sample.run_nii2dcm "/in" "/out"
              [("/in", ["seriesX"; "empty"],
                ["ep_b1000_ADC_20200101__7_ss_zmap.nii.gz"; "brainB_ss_zmap.nii.gz";
                 "notes.txt"])]
              [("/in/empty", [], ["readme.txt"])]
              ("/in/seriesX", [], ["readme.txt"; "scan1.dcm"; "scan2.dcm"])
              "/in/seriesX/scan1.dcm" (Exception "InvalidDicomError") [])
    as (Hinventory & _ & Hmain).
  - reflexivity.
  - vm_compute. reflexivity.
  - vm_compute. reflexivity.
  - reflexivity.
  - split; [exact Hinventory|]. by eapply Hmain.
Defined.

Lemma X8_only_representatives_read_witness :
  _get_dcm_fileinfos Sample.os_walk Sample.dcm_dcmread_first_only "/in"
  = _get_dcm_fileinfos Sample.os_walk Sample.dcm_dcmread "/in".
Proof.
  apply X8_only_representatives_read.
  intros entry path Hin Hrep. apply list_elem_of_In in Hin. simpl in Hin.
  destruct Hin as [<-|[<-|[<-|[]]]]; vm_compute in Hrep;
    first [discriminate Hrep | injection Hrep as <-; reflexivity].
Defined.

Lemma X9_inventory_in_walk_order_witness :
  omap representative (Sample.os_walk "/in") = ["/in/seriesX/scan1.dcm"].
Proof.
  destruct (X9_inventory_in_walk_order Sample.os_walk Sample.dcm_dcmread "/in"
              [Sample.dcm_X]) as (Hnames & _).
  - vm_compute. reflexivity.
  - rewrite <- Hnames. reflexivity.
Defined.

Lemma X10_raises_only_what_the_environment_raised_witness :
  Sample.os_listdir_missing "/in" = Raised (Exception "FileNotFoundError")
  ∨ (∃ entry path,
       entry ∈ Sample.os_walk "/in" ∧ representative entry = Some path
       ∧ Sample.dcm_dcmread path = Raised (Exception "FileNotFoundError"))
  ∨ (∃ nii out_dir ref,
       last (conversions
               (trace (main Sample.os_listdir_missing Sample.os_walk
                         Sample.dcm_dcmread Sample.run_nii2dcm "/in" "/out")))
         = Some (nii, out_dir, "MR", ref)
       ∧ Sample.run_nii2dcm nii out_dir "MR" ref
         = Raised (Exception "FileNotFoundError")).
Proof.
  apply (X10_raises_only_what_the_environment_raised Sample.os_listdir_missing
           Sample.os_walk Sample.dcm_dcmread Sample.run_nii2dcm "/in" "/out").
  reflexivity.
Defined.

Lemma X11_no_dicom_no_conversion_witness :
  result (main Sample.os_listdir Sample.os_walk_no_dcm Sample.dcm_dcmread_invalid
            Sample.run_nii2dcm "/in" "/out") = Returned tt
  ∧ conversions
      (trace (main Sample.os_listdir Sample.os_walk_no_dcm
                Sample.dcm_dcmread_invalid Sample.run_nii2dcm "/in" "/out")) = [].
Proof.
  destruct (X11_no_dicom_no_conversion Sample.os_listdir Sample.os_walk_no_dcm
              Sample.dcm_dcmread_invalid Sample.run_nii2dcm "/in" "/out"
              ["ep_b1000_ADC_20200101__7_ss_zmap.nii.gz"; "brainB_ss_zmap.nii.gz";
               "notes.txt"; "seriesX"; "empty"])
    as (Hresult & Hcalls & _).
  - reflexivity.
  - intros entry ->%list_elem_of_singleton. reflexivity.
  - by split.
Defined.


Lemma X15_short_prompt_never_matches_witness :
  (Sample.nii_B, None) ∈ invalid_pairs [Sample.nii_A; Sample.nii_B] [Sample.dcm_X].
Proof.
  destruct (X15_short_prompt_never_matches Sample.os_walk Sample.dcm_dcmread "/in"
              [Sample.dcm_X]) as [_ Hshort].
  - vm_compute. reflexivity.
  - apply Hshort.
    + right. by left.
    + left. vm_compute. lia.
Defined.

(** ** From the input directory to the conversion calls *)

Section EndToEnd.
Import Str StrFacts.

Context (os_listdir : string → outcome (list string)).
Context (os_walk : string → list (string * list string * list string)).
Context (dcm_dcmread : string → outcome Dataset).
Context (run_nii2dcm : Path → Path → string → Path → outcome unit).

(** X17.  A NIfTI file named after the key of a DICOM directory is
    converted: when the entry [stem_ss_zmap.nii.gz] is listed, some record
    of the DICOM inventory has the prompt [stem], and no call of the
    conversion routine raises, [main] returns and has called the routine
    for that entry with the output directory [outputdir/stem_ss_zmap], the
    modality [MR] and, as reference, the file of a DICOM record whose
    prompt is [stem]. *)
Theorem X17_named_after_key_is_converted
    inputdir outputdir filenames stem dcm_fileinfos d :
  os_listdir inputdir = Returned filenames →
  stem +:+ "_ss_zmap.nii.gz" ∈ filenames →
  occurs sep stem = false →
  result (_get_dcm_fileinfos os_walk dcm_dcmread inputdir) = Returned dcm_fileinfos →
  d ∈ dcm_fileinfos →
  prompt d = stem →
  (∀ nii out_dir modality ref, run_nii2dcm nii out_dir modality ref = Returned tt) →
  result (main os_listdir os_walk dcm_dcmread run_nii2dcm inputdir outputdir)
    = Returned tt
  ∧ ∃ r, r ∈ dcm_fileinfos ∧ prompt r = stem
         ∧ (mkPath (stem +:+ "_ss_zmap.nii.gz"),
            mkPath (outputdir +:+ "/" +:+ stem +:+ "_ss_zmap"),
            "MR", mkPath (filename r))
           ∈ conversions
               (trace (main os_listdir os_walk dcm_dcmread run_nii2dcm
                         inputdir outputdir)).
Proof.
  intros Hlist Hin Hbare Hdcm Hd Hprompt Hnever.
  rewrite main_result, main_conversions, _get_nii_fileinfos_result, Hlist, Hdcm.
  set (nii_fileinfos := _get_nii_fileinfo <$> _).
  destruct (main_loop run_nii2dcm outputdir (valid_pairs nii_fileinfos dcm_fileinfos))
    as (processed & _ & -> & Hall); [apply valid_pairs_Forall|].
  destruct (Hall Hnever) as [-> Hreturns]. split; [done|].
  assert (endswith (stem +:+ "_ss_zmap.nii.gz") ".nii.gz" = true) as Hends.
  { apply endswith_iff. exists (stem +:+ "_ss_zmap"). by rewrite append_assoc. }
  set (n := _get_nii_fileinfo (stem +:+ "_ss_zmap.nii.gz")).
  assert (n ∈ nii_fileinfos) as Hn.
  { apply list_elem_of_fmap. exists (stem +:+ "_ss_zmap.nii.gz"). split; [done|].
    apply list_elem_of_filter. split; [by apply Is_true_true|done]. }
  assert (prompt n = stem) as Hkey.
  { simpl. by rewrite re_sub_at_end_suffix, append_nil_r. }
  destruct (dcm_fileinfo_map_is_Some dcm_fileinfos d Hd) as [r Hr].
  rewrite Hprompt, <- Hkey in Hr.
  destruct (dcm_fileinfo_map_Some _ _ _ Hr) as [Hrin Hrprompt].
  exists r. split_and!; [done|congruence|].
  apply list_elem_of_fmap. exists (n, Some r). split.
  - simpl. do 3 f_equal. unfold _get_outdir.
    rewrite basename_no_sep by (by rewrite occurs_app, Hbare).
    replace (stem +:+ "_ss_zmap.nii.gz") with ((stem +:+ "_ss_zmap") +:+ ".nii.gz")
      by (by rewrite append_assoc).
    by rewrite re_sub_at_end_suffix, append_nil_r.
  - apply elem_of_valid_pairs. by rewrite Hr.
Qed.

(** X18.  [main] converts nothing but matched NIfTI files: every call of
    the conversion routine is for an entry of the input directory that ends
    in [.nii.gz], with a record of the DICOM inventory whose prompt is the
    prompt of that entry as reference. *)
Theorem X18_only_matched_files_converted inputdir outputdir call :
  call ∈ conversions
           (trace (main os_listdir os_walk dcm_dcmread run_nii2dcm
                     inputdir outputdir)) →
  ∃ filenames dcm_fileinfos f d,
    os_listdir inputdir = Returned filenames
    ∧ result (_get_dcm_fileinfos os_walk dcm_dcmread inputdir)
      = Returned dcm_fileinfos
    ∧ f ∈ filenames ∧ endswith f ".nii.gz" = true
    ∧ d ∈ dcm_fileinfos ∧ prompt d = prompt (_get_nii_fileinfo f)
    ∧ call = (mkPath f, mkPath (_get_outdir outputdir f), "MR",
              mkPath (filename d)).
Proof.
  rewrite main_conversions, _get_nii_fileinfos_result.
  destruct (os_listdir inputdir) as [filenames|e]; [|by intros ?%elem_of_nil].
  destruct (result (_get_dcm_fileinfos _ _ _)) as [dcm_fileinfos|e];
    [|by intros ?%elem_of_nil].
  set (nii_fileinfos := _get_nii_fileinfo <$> _).
  destruct (main_loop run_nii2dcm outputdir (valid_pairs nii_fileinfos dcm_fileinfos))
    as (processed & [rest Hprefix] & -> & _); [apply valid_pairs_Forall|].
  intros ([n x] & -> & Hp)%list_elem_of_fmap.
  assert ((n, x) ∈ valid_pairs nii_fileinfos dcm_fileinfos) as Hvalid
    by (rewrite Hprefix; apply elem_of_app; by left).
  apply elem_of_valid_pairs in Hvalid as (Hn & -> & Hsome).
  apply list_elem_of_fmap in Hn as (f & -> & [Hends Hf]%list_elem_of_filter).
  destruct (dcm_fileinfo_map dcm_fileinfos !! prompt (_get_nii_fileinfo f))
    as [d|] eqn:Hd; [|done].
  apply dcm_fileinfo_map_Some in Hd as [Hdin Hdprompt].
  exists filenames, dcm_fileinfos, f, d.
  split_and!; try done. by apply Is_true_true.
Qed.

End EndToEnd.

Lemma X17_named_after_key_is_converted_witness :
  result (main Sample.os_listdir Sample.os_walk Sample.dcm_dcmread
            Sample.run_nii2dcm "/in" "/out") = Returned tt
  ∧ ∃ r, r ∈ [Sample.dcm_X] ∧ prompt r = "ep_b1000_ADC_20200101__7"
         ∧ (mkPath "ep_b1000_ADC_20200101__7_ss_zmap.nii.gz",
            mkPath "/out/ep_b1000_ADC_20200101__7_ss_zmap",
            "MR", mkPath (filename r))
           ∈ conversions
               (trace (main Sample.os_listdir Sample.os_walk Sample.dcm_dcmread
                         Sample.run_nii2dcm "/in" "/out")).
Proof.
  apply (X17_named_after_key_is_converted Sample.os_listdir Sample.os_walk
           Sample.dcm_dcmread Sample.run_nii2dcm "/in" "/out"
           ["ep_b1000_ADC_20200101__7_ss_zmap.nii.gz"; "brainB_ss_zmap.nii.gz";
            "notes.txt"; "seriesX"; "empty"]
           "ep_b1000_ADC_20200101__7" [Sample.dcm_X] Sample.dcm_X).
  - reflexivity.
  - by left.
  - reflexivity.
  - vm_compute. reflexivity.
  - by left.
  - reflexivity.
  - reflexivity.
Defined.

Lemma X18_only_matched_files_converted_witness :
  ∃ filenames dcm_fileinfos f d,
    Sample.os_listdir "/in" = Returned filenames
    ∧ result (_get_dcm_fileinfos Sample.os_walk Sample.dcm_dcmread "/in")
      = Returned dcm_fileinfos
    ∧ f ∈ filenames ∧ Str.endswith f ".nii.gz" = true
    ∧ d ∈ dcm_fileinfos ∧ prompt d = prompt (_get_nii_fileinfo f)
    ∧ (mkPath "ep_b1000_ADC_20200101__7_ss_zmap.nii.gz",
       mkPath "/out/ep_b1000_ADC_20200101__7_ss_zmap",
       "MR", mkPath "/in/seriesX/scan1.dcm")
      = (mkPath f, mkPath (_get_outdir "/out" f), "MR", mkPath (filename d)).
Proof.
  apply (X18_only_matched_files_converted Sample.os_listdir Sample.os_walk
           Sample.dcm_dcmread Sample.run_nii2dcm "/in" "/out").
  vm_compute. left.
Defined.
